(** * job_alert.py: a shallow embedding and its checked properties

    The program fetches job postings for every (query term, location) pair,
    keeps the postings that pass a keyword filter, renders them as an HTML
    digest and mails it.

    Modelling choices, all read off [src/job_alert.py]:
    - a decoded JSON value is a [value]; a job record is a [VDict], a Python
      dict used as a map, hence a [gmap string value];
    - a Python [str] is a [string] whose characters are code points below 256;
      numbers are the JSON integers;
    - an operation that can raise returns a [result]; the orchestrator, which
      talks to the network and prints, runs in a small state-and-error monad
      [M] whose state records the trace of external events;
    - the body of the [for j in jobs:] loop of [build_email_html] is lines
      71-93, which the source writes at the indentation of the [for] itself. *)

From Stdlib Require Import String Ascii ZArith List Bool Lia.
From stdpp Require Import base option list gmap strings pretty.

Set Warnings "-register-all".
Open Scope string_scope.

(** ** Exceptions and results *)

(** The program only ever tests [except Exception]; the classes are kept as
    far as the code or the environment names them.  [WrongType] stands for the
    [TypeError] / [AttributeError] the interpreter raises when a builtin
    operation meets a value of another type. *)
Inductive exn : Type :=
| WrongType
| RuntimeError (msg : string)
| RequestException (msg : string)
| HTTPError (status : Z)
| JSONDecodeError
| SMTPException (msg : string).

Inductive result (A : Type) : Type :=
| Ok (a : A)
| Raise (e : exn).
Arguments Ok {A} a.
Arguments Raise {A} e.

#[export] Instance result_ret : MRet result := fun _ a => Ok a.
#[export] Instance result_bind : MBind result := fun _ _ f m =>
  match m with
  | Ok a => f a
  | Raise e => Raise e
  end.

Definition is_ok {A} (r : result A) : bool :=
  match r with Ok _ => true | Raise _ => false end.

(** ** Values *)

Inductive value : Type :=
| VNone
| VBool (b : bool)
| VInt (n : Z)
| VStr (s : string)
| VList (l : list value)
| VDict (d : gmap string value).

(** Python truthiness, as used by [not x] and [x or y]. *)
Definition truthy (v : value) : bool :=
  match v with
  | VNone => false
  | VBool b => b
  | VInt n => negb (n =? 0)%Z
  | VStr s => negb (String.eqb s EmptyString)
  | VList l => match l with [] => false | _ => true end
  | VDict d => negb (bool_decide (d = ∅))
  end.

(** [a or b]. *)
Definition py_or (a b : value) : value := if truthy a then a else b.

(** [obj.get(key, dflt)]: only a dict has the method. *)
Definition py_get (obj : value) (key : string) (dflt : value) : result value :=
  match obj with
  | VDict d => Ok (default dflt (d !! key))
  | _ => Raise WrongType
  end.

(** ** Strings *)

Definition nl : string := String (ascii_of_nat 10) EmptyString.
Definition dq : string := String (ascii_of_nat 34) EmptyString.

(** [str.lower] on the 8-bit range: A-Z, and the accented capitals
    U+00C0..U+00DE except the multiplication sign U+00D7. *)
Definition lower_char (c : ascii) : ascii :=
  let n := nat_of_ascii c in
  if (((65 <=? n) && (n <=? 90)) ||
      ((192 <=? n) && (n <=? 222) && negb (n =? 215)))%nat
  then ascii_of_nat (n + 32) else c.

Fixpoint lower (s : string) : string :=
  match s with
  | EmptyString => EmptyString
  | String c s' => String (lower_char c) (lower s')
  end.

(** [k in s] on strings: [k] occurs at some position of [s]. *)
Fixpoint contains (k s : string) : bool :=
  String.prefix k s ||
  match s with
  | EmptyString => false
  | String _ s' => contains k s'
  end.

(** [s.startswith(p)]. *)
Definition startswith (s p : string) : bool := String.prefix p s.

(** [s[:n]]. *)
Fixpoint str_take (n : nat) (s : string) : string :=
  match n, s with
  | S n', String c s' => String c (str_take n' s')
  | _, _ => EmptyString
  end.

(** [sep.join(xs)] for a list of values: a [TypeError] unless every item is a
    string. *)
Fixpoint join_strs (sep : string) (xs : list string) : string :=
  match xs with
  | [] => EmptyString
  | [x] => x
  | x :: xs' => x ++ sep ++ join_strs sep xs'
  end.

Fixpoint as_strs (xs : list value) : result (list string) :=
  match xs with
  | [] => Ok []
  | VStr s :: xs' => ss ← as_strs xs'; Ok (s :: ss)
  | _ :: _ => Raise WrongType
  end.

Definition str_join (sep : string) (xs : list value) : result string :=
  ss ← as_strs xs; Ok (join_strs sep ss).

(** [any(p(k) for k in ks)]. *)
Definition py_any {A} (p : A → bool) (ks : list A) : bool := existsb p ks.

(** ** The interest filter (lines 34-37 and 49-58) *)

Definition ENTRY_KEYWORDS : list string :=
  ["entry level"; "junior"; "fresher"; "new grad"; "0-2 years"].
Definition AI_ML_KEYWORDS : list string :=
  ["machine learning"; "ml engineer"; "ai engineer"; "deep learning"].
Definition DJANGO_KEYWORDS : list string :=
  ["django"; "python"; "drf"; "django rest"].
Definition FULLSTACK_KEYWORDS : list string :=
  ["full stack"; "backend"; "frontend"; "software engineer"].

Definition matches_interest (job : value) : result bool :=
  title ← py_get job "title" (VStr EmptyString);
  company ← py_get job "company_name" (VStr EmptyString);
  description ← py_get job "description" (VStr EmptyString);
  joined ← str_join " " [title; company; description];
  let text := lower joined in
  Ok (py_any (fun k => contains k text) ENTRY_KEYWORDS
      && py_any (fun k => contains k text)
           (AI_ML_KEYWORDS ++ DJANGO_KEYWORDS ++ FULLSTACK_KEYWORDS)%list).

(** The filter's condition as the specification words it: the haystack, and
    plain containment of a keyword in it. *)
Definition Substring (k s : string) : Prop :=
  ∃ pre post, s = pre ++ k ++ post.

Definition spec_text_field (d : gmap string value) (key : string) : option string :=
  match d !! key with
  | None => Some EmptyString
  | Some (VStr s) => Some s
  | Some _ => None
  end.

Definition spec_haystack (job : value) : option string :=
  match job with
  | VDict d =>
      t ← spec_text_field d "title";
      c ← spec_text_field d "company_name";
      x ← spec_text_field d "description";
      Some (lower (t ++ " " ++ c ++ " " ++ x))
  | _ => None
  end.

(** The test of lines 55-58 on a given text. *)
Definition keywords_found (text : string) : bool :=
  py_any (fun k => contains k text) ENTRY_KEYWORDS
  && py_any (fun k => contains k text)
       (AI_ML_KEYWORDS ++ DJANGO_KEYWORDS ++ FULLSTACK_KEYWORDS)%list.

Definition spec_interesting (h : string) : Prop :=
  (∃ k, k ∈ ENTRY_KEYWORDS ∧ Substring k h) ∧
  (∃ k, (k ∈ AI_ML_KEYWORDS ∨ k ∈ DJANGO_KEYWORDS ∨ k ∈ FULLSTACK_KEYWORDS)
        ∧ Substring k h).

(** ** HTML escaping ([html.escape] of the Python library) *)

(** [s.replace(c, r)] for a one-character [c]. *)
Fixpoint replace_char (c : ascii) (r : string) (s : string) : string :=
  match s with
  | EmptyString => EmptyString
  | String a s' =>
      if Ascii.eqb a c then r ++ replace_char c r s'
      else String a (replace_char c r s')
  end.

Definition c_amp : ascii := ascii_of_nat 38.
Definition c_lt : ascii := ascii_of_nat 60.
Definition c_gt : ascii := ascii_of_nat 62.
Definition c_quot : ascii := ascii_of_nat 34.
Definition c_apos : ascii := ascii_of_nat 39.

(** The ampersand is replaced first, then the angle brackets, then, with
    [quote], both quotation marks. *)
Definition html_escape (s : string) (quote : bool) : string :=
  let s := replace_char c_amp "&amp;" s in
  let s := replace_char c_lt "&lt;" s in
  let s := replace_char c_gt "&gt;" s in
  if quote then
    let s := replace_char c_quot "&quot;" s in
    replace_char c_apos "&#x27;" s
  else s.

(** [html.escape(v, quote)] on a value: [v.replace] exists on strings only. *)
Definition py_html_escape (v : value) (quote : bool) : result string :=
  match v with
  | VStr s => Ok (html_escape s quote)
  | _ => Raise WrongType
  end.

(** [v[:n]]: strings and lists can be sliced. *)
Definition py_slice (v : value) (n : nat) : result value :=
  match v with
  | VStr s => Ok (VStr (str_take n s))
  | VList l => Ok (VList (take n l))
  | _ => Raise WrongType
  end.

(** [v.startswith(p)]. *)
Definition py_startswith (v : value) (p : string) : result bool :=
  match v with
  | VStr s => Ok (startswith s p)
  | _ => Raise WrongType
  end.

(** [for j in v]: the items of a list, the characters of a string, the keys of
    a dict. *)
Fixpoint chars (s : string) : list value :=
  match s with
  | EmptyString => []
  | String c s' => VStr (String c EmptyString) :: chars s'
  end.

Definition py_iter (v : value) : result (list value) :=
  match v with
  | VList l => Ok l
  | VStr s => Ok (chars s)
  | VDict d => Ok (VStr <$> (map_to_list d).*1)
  | _ => Raise WrongType
  end.

(** ** Configuration (lines 22-31) and the outside world *)

Record config : Type := {
  SERPAPI_KEY : option string;
  EMAIL_HOST : string;
  EMAIL_PORT : Z;
  EMAIL_USER : option string;
  EMAIL_PASS : option string;
  EMAIL_TO : option string;
  JOB_QUERY_TERMS : list string;
  LOCATIONS : list string;
  MAX_RESULTS : Z;
  MIN_DAYS_OLD : Z
}.

(** The same configuration with other values for the two limits. *)
Definition with_limits (max_results min_days_old : Z) (c : config) : config :=
  {| SERPAPI_KEY := SERPAPI_KEY c;
     EMAIL_HOST := EMAIL_HOST c;
     EMAIL_PORT := EMAIL_PORT c;
     EMAIL_USER := EMAIL_USER c;
     EMAIL_PASS := EMAIL_PASS c;
     EMAIL_TO := EMAIL_TO c;
     JOB_QUERY_TERMS := JOB_QUERY_TERMS c;
     LOCATIONS := LOCATIONS c;
     MAX_RESULTS := max_results;
     MIN_DAYS_OLD := min_days_old |}.

Definition SERPAPI_SEARCH_URL : string := "https://serpapi.com/search.json".

(** What [requests.get] gives back: it raises (timeout, transport failure), or
    there is a response with a status and a body that decodes as JSON or does
    not. *)
Inductive http_outcome : Type :=
| NoResponse (e : exn)
| Response (status_code : Z) (json : option value).

(** The message handed to the SMTP session of [send_email]. *)
Record email : Type := {
  smtp_host : string;
  smtp_port : Z;
  login_user : option string;
  login_pass : option string;
  mail_from : option string;
  rcpt_to : option string;
  subject_line : string;
  html_part : string
}.

(** The environment of a run: the search service answers the [n]-th request
    of the run, the SMTP relay accepts a message or fails, and the clock gives
    the UTC date as [strftime('%Y-%m-%d')] prints it. *)
Record world : Type := {
  http_get : nat → string → string → option string → http_outcome;
  smtp_deliver : email → option exn;
  utc_today : string
}.

(** What a run does to the outside, in order.  The two [print] calls are kept
    with the values their f-strings interpolate. *)
Inductive event : Type :=
| EvHttpGet (url q : string) (api_key : option string)
| EvPrintFetchError (query loc : string) (e : exn)
| EvSendEmail (m : email)
| EvPrintSent (n : nat).

(** The mutable state of a run: the trace so far, the number of requests made
    and the list [jobs_collected] of [main]. *)
Record state : Type := {
  trace : list event;
  requests : nat;
  jobs_collected : list value
}.

Definition initial : state :=
  {| trace := []; requests := 0; jobs_collected := [] |}.

(** State survives an exception: what was appended or printed before a
    [raise] stays. *)
Definition M (A : Type) : Type := state → state * result A.

Definition m_ret {A} (a : A) : M A := fun s => (s, Ok a).
Definition m_bind {A B} (m : M A) (k : A → M B) : M B := fun s =>
  match m s with
  | (s', Ok a) => k a s'
  | (s', Raise e) => (s', Raise e)
  end.
Definition m_raise {A} (e : exn) : M A := fun s => (s, Raise e).
Definition m_lift {A} (r : result A) : M A := fun s => (s, r).

Notation "'do' x <- m ; k" := (m_bind m (fun x => k))
  (at level 10, x name, m at level 100, k at level 200).
Notation "m ;;; k" := (m_bind m (fun _ => k))
  (at level 100, k at level 200, right associativity).

(** [try: body except Exception as e: handler(e)]. *)
Definition try_except (body : M unit) (handler : exn → M unit) : M unit :=
  fun s =>
    match body s with
    | (s', Ok tt) => (s', Ok tt)
    | (s', Raise e) => handler e s'
    end.

(** [for x in xs: body(x)]. *)
Fixpoint for_each {A} (xs : list A) (body : A → M unit) : M unit :=
  match xs with
  | [] => m_ret tt
  | x :: xs' => body x ;;; for_each xs' body
  end.

Definition emit (e : event) : M unit := fun s =>
  ({| trace := (trace s ++ [e])%list; requests := requests s;
      jobs_collected := jobs_collected s |}, Ok tt).

Definition append_job (j : value) : M unit := fun s =>
  ({| trace := trace s; requests := requests s;
      jobs_collected := (jobs_collected s ++ [j])%list |}, Ok tt).

Definition read_jobs : M (list value) := fun s => (s, Ok (jobs_collected s)).

(** ** The program *)

Section JobAlert.

(** [str(v)] of a list or a dict is the interpreter's [repr], which is not
    part of the repository and depends on the insertion order of a dict. *)
Variable repr_container : value → string.

(** The module's globals and the world the run talks to. *)
Variable cfg : config.
Variable env : world.

(** What an f-string interpolates for [{v}]. *)
Definition py_str (v : value) : string :=
  match v with
  | VStr s => s
  | VNone => "None"
  | VBool true => "True"
  | VBool false => "False"
  | VInt n => pretty n
  | VList _ | VDict _ => repr_container v
  end.

(** *** search_jobs (lines 39-47) *)

Definition requests_get (url q : string) (api_key : option string)
  : M http_outcome := fun s =>
  ({| trace := (trace s ++ [EvHttpGet url q api_key])%list;
      requests := S (requests s);
      jobs_collected := jobs_collected s |},
   Ok (http_get env (requests s) url q api_key)).

(** Lines 46-47 on what [requests.get] returned: [raise_for_status] raises on
    a 4xx or 5xx status, [r.json()] on a body that is not JSON, [.get] on a
    body that is not an object. *)
Definition response_jobs (o : http_outcome) : result value :=
  match o with
  | NoResponse e => Raise e
  | Response status_code json =>
      if ((400 <=? status_code) && (status_code <? 600))%Z
      then Raise (HTTPError status_code)
      else match json with
           | None => Raise JSONDecodeError
           | Some body => py_get body "jobs_results" (VList [])
           end
  end.

Definition search_jobs (query location : string) : M value :=
  do o <- requests_get SERPAPI_SEARCH_URL (query ++ " in " ++ location)
            (SERPAPI_KEY cfg);
  m_lift (response_jobs o).

(** *** build_email_html (lines 60-96) *)

Definition NO_JOBS : string := "<p>No new relevant jobs found today.</p>".

Definition html_header : list string :=
  [ "<h2>🚀 Job Finder Results</h2>";
    "<p>Click the job title to open the application link in your browser.</p>";
    "<ul>" ].

(** The f-string of lines 85-93. *)
Definition item_html (safe_link title company location date_posted snippet
                      : string) : string :=
  nl ++ "    <li>" ++ nl ++
  "      <strong><a href=" ++ dq ++ safe_link ++ dq ++
    " target=" ++ dq ++ "_blank" ++ dq ++
    " rel=" ++ dq ++ "noopener noreferrer" ++ dq ++ ">" ++
    title ++ "</a></strong><br/>" ++ nl ++
  "      <em>Company:</em> " ++ company ++ "<br/>" ++ nl ++
  "      <em>Location:</em> " ++ location ++ "<br/>" ++ nl ++
  "      <em>Posted:</em> " ++ date_posted ++ "<br/>" ++ nl ++
  "      <p>" ++ snippet ++ "</p><br/>" ++ nl ++
  "    </li>" ++ nl ++
  "    ".

(** Line 77: [j.get("apply_link") or j.get("link")]. *)
Definition chosen_link (j : value) : result value :=
  a ← py_get j "apply_link" VNone;
  if truthy a then Ok a else py_get j "link" VNone.

(** Line 78: [not link or not link.startswith("http")]. *)
Definition link_rejected (link : value) : result bool :=
  if negb (truthy link) then Ok true
  else sw ← py_startswith link "http"; Ok (negb sw).

(** Line 83. *)
Definition snippet_of (j : value) : result string :=
  d ← py_get j "description" (VStr EmptyString);
  cut ← py_slice d 250;
  py_html_escape cut true.

(** One turn of the loop: [None] is the [continue] of line 80, [Some li] the
    string line 85 appends. *)
Definition render_item (j : value) : result (option string) :=
  t ← py_get j "title" (VStr "N/A");
  title ← py_html_escape t true;
  c ← py_get j "company_name" (VStr EmptyString);
  company ← py_html_escape c true;
  l ← py_get j "location" (VStr EmptyString);
  location ← py_html_escape l true;
  ext ← py_get j "detected_extensions" (VDict ∅);
  date_posted ← py_get ext "posted_at" (VStr "N/A");
  link ← chosen_link j;
  skip ← link_rejected link;
  if skip : bool then Ok None
  else
    safe_link ← py_html_escape link true;
    snippet ← snippet_of j;
    Ok (Some (item_html safe_link title company location
                (py_str date_posted) snippet)).

Fixpoint render_loop (jobs : list value) (html_content : list string)
  : result (list string) :=
  match jobs with
  | [] => Ok html_content
  | j :: jobs' =>
      r ← render_item j;
      render_loop jobs'
        (match r with
         | Some li => (html_content ++ [li])%list
         | None => html_content
         end)
  end.

(** The list [html_content] as it stands at line 96. *)
Definition html_content_of (jobs : list value) : result (list string) :=
  body ← render_loop jobs html_header;
  Ok (body ++ ["</ul>"])%list.

Definition build_email_html (jobs : list value) : result string :=
  match jobs with
  | [] => Ok NO_JOBS
  | _ :: _ => content ← html_content_of jobs; Ok (join_strs nl content)
  end.

(** *** send_email (lines 98-108) *)

Definition send_email (subject html_body : string) : M unit :=
  let m := {| smtp_host := EMAIL_HOST cfg;
              smtp_port := EMAIL_PORT cfg;
              login_user := EMAIL_USER cfg;
              login_pass := EMAIL_PASS cfg;
              mail_from := EMAIL_USER cfg;
              rcpt_to := EMAIL_TO cfg;
              subject_line := subject;
              html_part := html_body |} in
  emit (EvSendEmail m) ;;;
  match smtp_deliver env m with
  | None => m_ret tt
  | Some e => m_raise e
  end.

(** *** main (lines 110-128) *)

Definition MISSING_KEY : exn :=
  RuntimeError "❌ Missing SERPAPI_API_KEY in environment.".

(** [not SERPAPI_KEY]: the variable is unset or set to the empty string. *)
Definition key_missing : bool :=
  match SERPAPI_KEY cfg with
  | None => true
  | Some k => String.eqb k EmptyString
  end.

(** Lines 118-121, the body of the [try]. *)
Definition fetch_and_filter (query loc : string) : M unit :=
  do results <- search_jobs query loc;
  do items <- m_lift (py_iter results);
  for_each items (fun j =>
    do keep <- m_lift (matches_interest j);
    if keep : bool then append_job j else m_ret tt).

Definition collect_jobs : M unit :=
  for_each (JOB_QUERY_TERMS cfg) (fun query =>
    for_each (LOCATIONS cfg) (fun loc =>
      try_except (fetch_and_filter query loc)
        (fun e => emit (EvPrintFetchError query loc e)))).

Definition subject_of (n : nat) (date : string) : string :=
  "[Job Alert] " ++ pretty n ++ " jobs found — " ++ date.

Definition main : M unit :=
  if key_missing then m_raise MISSING_KEY
  else
    collect_jobs ;;;
    do jobs <- read_jobs;
    do html_body <- m_lift (build_email_html jobs);
    let subject := subject_of (length jobs) (utc_today env) in
    send_email subject html_body ;;;
    emit (EvPrintSent (length jobs)).

(** A run starts with an empty trace and gives the trace and how it ended. *)
Definition run : list event * result unit :=
  let '(s, r) := main initial in (trace s, r).

End JobAlert.


(** ** Closed forms the statements below are written with *)

(** The (query term, location) pairs in the order [main] visits them. *)
Definition pairs (cfg : config) : list (string * string) :=
  flat_map (fun query => map (fun loc => (query, loc)) (LOCATIONS cfg))
    (JOB_QUERY_TERMS cfg).

(** What the service answers to the [n]-th request of a run, made for the pair
    [p]. *)
Definition nth_outcome (cfg : config) (env : world) (n : nat)
    (p : string * string) : http_outcome :=
  http_get env n SERPAPI_SEARCH_URL (p.1 ++ " in " ++ p.2) (SERPAPI_KEY cfg).

(** What [search_jobs] returns or raises on that answer, and the records the
    [for] of line 119 then walks through. *)
Definition search_result (o : http_outcome) : result (list value) :=
  response_jobs o ≫= py_iter.

(** The records of [items] kept up to the first one the filter raises on,
    with that exception. *)
Fixpoint accepted_upto (items : list value) : list value * option exn :=
  match items with
  | [] => ([], None)
  | j :: items' =>
      match matches_interest j with
      | Raise e => ([], Some e)
      | Ok keep =>
          let '(acc, r) := accepted_upto items' in
          (if keep then j :: acc else acc, r)
      end
  end.

(** What one pair adds to [jobs_collected], and the exception its [try] block
    ends with, if any. *)
Definition pair_outcome (o : http_outcome) : list value * option exn :=
  match search_result o with
  | Raise e => ([], Some e)
  | Ok items => accepted_upto items
  end.

Definition pair_events (cfg : config) (p : string * string)
    (o : http_outcome) : list event :=
  EvHttpGet SERPAPI_SEARCH_URL (p.1 ++ " in " ++ p.2) (SERPAPI_KEY cfg) ::
  match (pair_outcome o).2 with
  | Some e => [EvPrintFetchError p.1 p.2 e]
  | None => []
  end.

(** The records that pass the filter, as the specification words the
    accumulation: every record of every successful call. *)
Definition accepts (j : value) : bool :=
  match matches_interest j with Ok true => true | _ => false end.

Definition spec_pair_accepted (o : http_outcome) : list value :=
  match search_result o with
  | Raise _ => []
  | Ok items => filter (fun j => accepts j = true) items
  end.

(** The renderer's precondition as the specification words it: the chosen link
    is a non-empty text that begins with [http]. *)
Definition link_ok (j : value) : bool :=
  match chosen_link j with
  | Ok (VStr l) => negb (String.eqb l EmptyString) && startswith l "http"
  | _ => false
  end.

(** The least any reading of "well-formed absolute HTTP(S) URL" asks for: the
    scheme followed by [://]. *)
Definition spec_absolute_http_url (l : string) : bool :=
  startswith l "http://" || startswith l "https://".

(** The message [main] hands to [send_email] for a list of collected jobs and
    a rendered body. *)
Definition digest_email (cfg : config) (env : world) (jobs : list value)
    (html_body : string) : email :=
  {| smtp_host := EMAIL_HOST cfg;
     smtp_port := EMAIL_PORT cfg;
     login_user := EMAIL_USER cfg;
     login_pass := EMAIL_PASS cfg;
     mail_from := EMAIL_USER cfg;
     rcpt_to := EMAIL_TO cfg;
     subject_line := subject_of (length jobs) (utc_today env);
     html_part := html_body |}.

(** The records a run collects and the events of its fetching loop, pair by
    pair in the order of [pairs]. *)
Definition collected (cfg : config) (env : world) : list value :=
  concat (imap (fun n p => (pair_outcome (nth_outcome cfg env n p)).1)
            (pairs cfg)).

Definition fetch_trace (cfg : config) (env : world) : list event :=
  concat (imap (fun n p => pair_events cfg p (nth_outcome cfg env n p))
            (pairs cfg)).

(** What follows the loop: rendering, sending, the closing [print]. *)
Definition deliver (rc : value → string) (cfg : config) (env : world)
    (jobs : list value) : list event * result unit :=
  match build_email_html rc jobs with
  | Raise e => ([], Raise e)
  | Ok html_body =>
      let m := digest_email cfg env jobs html_body in
      match smtp_deliver env m with
      | Some e => ([EvSendEmail m], Raise e)
      | None => ([EvSendEmail m; EvPrintSent (length jobs)], Ok tt)
      end
  end.

(** States the loop passes through. *)
Definition with_jobs (s : state) (js : list value) : state :=
  {| trace := trace s; requests := requests s;
     jobs_collected := (jobs_collected s ++ js)%list |}.

Definition after_pair (cfg : config) (env : world) (s : state)
    (p : string * string) : state :=
  let o := nth_outcome cfg env (requests s) p in
  {| trace := (trace s ++ pair_events cfg p o)%list;
     requests := S (requests s);
     jobs_collected := (jobs_collected s ++ (pair_outcome o).1)%list |}.

(** Lines 117-123 for one pair. *)
Definition visit (cfg : config) (env : world) (p : string * string) : M unit :=
  try_except (fetch_and_filter cfg env p.1 p.2)
    (fun e => emit (EvPrintFetchError p.1 p.2 e)).

(** [c] occurs in [s]. *)
Fixpoint occurs (c : ascii) (s : string) : bool :=
  match s with
  | EmptyString => false
  | String a s' => Ascii.eqb a c || occurs c s'
  end.

(** [c * n]. *)
Fixpoint str_repeat (c : ascii) (n : nat) : string :=
  match n with
  | 0 => EmptyString
  | S n' => String c (str_repeat c n')
  end.

(** ** Sample records, configurations and worlds *)

Definition no_repr : value → string := fun _ => EmptyString.

Definition job_ok : value :=
  VDict (list_to_map
    [ ("title", VStr "Junior Full Stack Developer");
      ("description", VStr "full stack web role");
      ("apply_link", VStr "https://example.com/apply") ]).

Definition job_ok2 : value :=
  VDict (list_to_map
    [ ("title", VStr "Django developer (fresher)");
      ("link", VStr "https://example.com/django") ]).

(** The apply link is there but empty. *)
Definition job_empty_apply : gmap string value :=
  list_to_map
    [ ("title", VStr "Junior Python developer");
      ("apply_link", VStr EmptyString);
      ("link", VStr "https://example.com/job/7") ].

(** Passes the filter, has no usable link. *)
Definition job_no_link : value :=
  VDict (list_to_map
    [ ("title", VStr "Junior backend engineer");
      ("link", VStr "ftp://example.com/job/8") ]).

(** The link begins with [http] and is no URL. *)
Definition job_httpx : value :=
  VDict (list_to_map
    [ ("title", VStr "Junior frontend engineer");
      ("link", VStr "httpfoo") ]).

(** The title is JSON [null]. *)
Definition job_null_title : value :=
  VDict (list_to_map [ ("title", VNone) ]).

(** The posted date carries markup; so does the title. *)
Definition job_markup : value :=
  VDict (list_to_map
    [ ("title", VStr "Junior <i>Python</i> developer");
      ("link", VStr "https://example.com/job/9");
      ("detected_extensions",
        VDict (list_to_map [ ("posted_at", VStr "<script>alert(1)</script>") ])) ]).

(** 250 ampersands, then more text. *)
Definition job_ampersands : value :=
  VDict (list_to_map
    [ ("title", VStr "Junior Python developer");
      ("link", VStr "https://example.com/job/10");
      ("description", VStr (str_repeat c_amp 250 ++ "tail")) ]).

Definition sample_cfg (key : option string) (terms locs : list string) : config :=
  {| SERPAPI_KEY := key;
     EMAIL_HOST := "smtp.gmail.com";
     EMAIL_PORT := 587;
     EMAIL_USER := Some "me@example.com";
     EMAIL_PASS := Some "secret";
     EMAIL_TO := Some "me@example.com";
     JOB_QUERY_TERMS := terms;
     LOCATIONS := locs;
     MAX_RESULTS := 25;
     MIN_DAYS_OLD := 4 |}.

Definition found (jobs : list value) : http_outcome :=
  Response 200 (Some (VDict (list_to_map [ ("jobs_results", VList jobs) ]))).

(** A world whose [n]-th answer is the [n]-th of [answers] (a timeout after
    the last) and whose relay accepts everything. *)
Definition sample_world (answers : list http_outcome) : world :=
  {| http_get := fun n _ _ _ =>
       default (NoResponse (RequestException "timed out")) (answers !! n);
     smtp_deliver := fun _ => None;
     utc_today := "2024-05-01" |}.

(** The events that hand a message to the relay, and the requests. *)
Definition is_send (e : event) : bool :=
  match e with EvSendEmail _ => true | _ => false end.

Definition is_request (e : event) : bool :=
  match e with EvHttpGet _ _ _ => true | _ => false end.

(** The accumulation as the specification words it. *)
Definition spec_collected (cfg : config) (env : world) : list value :=
  concat (imap (fun n p => spec_pair_accepted (nth_outcome cfg env n p))
            (pairs cfg)).

Definition request_of (cfg : config) (p : string * string) : event :=
  EvHttpGet SERPAPI_SEARCH_URL (p.1 ++ " in " ++ p.2) (SERPAPI_KEY cfg).

(** A record that passes the filter and whose location is JSON [null]. *)
Definition job_null_location : value :=
  VDict (list_to_map
    [ ("title", VStr "Junior Python developer");
      ("location", VNone);
      ("link", VStr "https://example.com/job/11") ]).

Definition cfg_one : config :=
  sample_cfg (Some "key") ["Django developer"] ["Remote"].

Definition cfg_two : config :=
  sample_cfg (Some "key")
    ["entry level Full Stack Developer"; "Django developer"] ["Remote"].

Definition cfg_no_key : config :=
  sample_cfg None ["Django developer"] ["Remote"; "India"].

Definition world_no_link : world := sample_world [found [job_no_link]].

Definition world_null_title : world :=
  sample_world [found [job_ok; job_null_title; job_ok2]].

Definition world_timeout : world :=
  sample_world [NoResponse (RequestException "timed out"); found [job_ok]].

(** The first call times out; the second returns a record that passes the
    filter and whose location is JSON [null]. *)
Definition world_timeout_then_null_location : world :=
  sample_world
    [NoResponse (RequestException "timed out"); found [job_null_location]].

(** ** Configuration resolution (lines 22-31) *)

(** [s.split(sep)] for a one-character separator: every occurrence cuts, so
    the result is never empty and may hold empty pieces. *)
Fixpoint split (sep : ascii) (s : string) : list string :=
  match s with
  | EmptyString => [EmptyString]
  | String c s' =>
      if Ascii.eqb c sep then EmptyString :: split sep s'
      else match split sep s' with
           | piece :: rest => String c piece :: rest
           | [] => [String c EmptyString]
           end
  end.

Definition semicolon : ascii := ascii_of_nat 59.

(** [s.count(c)]. *)
Fixpoint count_char (c : ascii) (s : string) : nat :=
  match s with
  | EmptyString => 0
  | String a s' => (if Ascii.eqb a c then 1 else 0) + count_char c s'
  end.

Definition DEFAULT_QUERY_TERMS : string :=
  "entry level Full Stack Developer;entry level AI ML engineer;Django developer".
Definition DEFAULT_LOCATIONS : string := "Remote;India".

Section Config.

(** [int(s)] of a string is the interpreter's; [None] is its [ValueError]. *)
Variable py_int : string → option Z.

(** [int(os.getenv(name, dflt))] with an integer default. *)
Definition getenv_int (environ : gmap string string) (name : string)
    (dflt : Z) : option Z :=
  match environ !! name with
  | None => Some dflt
  | Some s => py_int s
  end.

(** The module's globals from the process environment as [load_dotenv] left
    it, in the order of the source; [None] when one of the [int] conversions
    raises, which ends the program at import. *)
Definition load_config (environ : gmap string string) : option config :=
  let key := environ !! "SERPAPI_API_KEY" in
  let host := default "smtp.gmail.com" (environ !! "EMAIL_SMTP_HOST") in
  port ← getenv_int environ "EMAIL_SMTP_PORT" 587;
  let user := environ !! "EMAIL_USERNAME" in
  let pass := environ !! "EMAIL_PASSWORD" in
  let to := match environ !! "EMAIL_TO" with Some t => Some t | None => user end in
  let terms :=
    split semicolon (default DEFAULT_QUERY_TERMS (environ !! "JOB_QUERY_TERMS")) in
  let locs :=
    split semicolon (default DEFAULT_LOCATIONS (environ !! "LOCATIONS")) in
  max_results ← getenv_int environ "MAX_RESULTS" 25;
  min_days_old ← getenv_int environ "MIN_DAYS_OLD" 4;
  Some {| SERPAPI_KEY := key;
          EMAIL_HOST := host;
          EMAIL_PORT := port;
          EMAIL_USER := user;
          EMAIL_PASS := pass;
          EMAIL_TO := to;
          JOB_QUERY_TERMS := terms;
          LOCATIONS := locs;
          MAX_RESULTS := max_results;
          MIN_DAYS_OLD := min_days_old |}.

(** The script run as a program (lines 130-131): the globals, then [main]. *)
Definition script (rc : value → string) (environ : gmap string string)
    (env : world) : option (list event * result unit) :=
  cfg ← load_config environ; Some (run rc cfg env).

End Config.

(** ** Shapes of records *)

Definition is_str (v : value) : bool :=
  match v with VStr _ => true | _ => false end.

Definition is_list (v : value) : bool :=
  match v with VList _ => true | _ => false end.

Definition is_dict (v : value) : bool :=
  match v with VDict _ => true | _ => false end.

(** The field is missing or a text. *)
Definition text_or_missing (d : gmap string value) (key : string) : bool :=
  match d !! key with
  | None => true
  | Some v => is_str v
  end.

(** The field is missing, falsy or a text. *)
Definition link_or_nothing (d : gmap string value) (key : string) : bool :=
  match d !! key with
  | None => true
  | Some v => is_str v || negb (truthy v)
  end.

(** A record every step of the renderer's loop can work on. *)
Definition renderable (j : value) : bool :=
  match j with
  | VDict d =>
      text_or_missing d "title" && text_or_missing d "company_name" &&
      text_or_missing d "location" && text_or_missing d "description" &&
      match d !! "detected_extensions" with
      | None => true
      | Some v => is_dict v
      end &&
      link_or_nothing d "apply_link" && link_or_nothing d "link"
  | _ => false
  end.

(** The three fields the filter reads. *)
Definition filter_field (key : string) : Prop :=
  key = "title" ∨ key = "company_name" ∨ key = "description".

(** A parser standing in for [int] in examples: decimal digits only. *)
Fixpoint digits_value (acc : Z) (s : string) : option Z :=
  match s with
  | EmptyString => Some acc
  | String c s' =>
      let n := nat_of_ascii c in
      if ((48 <=? n) && (n <=? 57))%nat
      then digits_value (10 * acc + Z.of_nat (n - 48)) s'
      else None
  end.

Definition sample_int (s : string) : option Z :=
  match s with
  | EmptyString => None
  | _ => digits_value 0 s
  end.

Definition sample_environ : gmap string string :=
  list_to_map
    [ ("SERPAPI_API_KEY", "key");
      ("EMAIL_USERNAME", "me@example.com");
      ("JOB_QUERY_TERMS", "Django developer;;junior ML engineer");
      ("LOCATIONS", "Remote") ].

Definition world_null_location : world :=
  sample_world [found [job_null_location]].

(** A relay that refuses every message. *)
Definition world_relay_down : world :=
  {| http_get := fun _ _ _ _ => found [job_ok];
     smtp_deliver := fun _ => Some (SMTPException "connection refused");
     utc_today := "2024-05-01" |}.

(** A service that always answers with the same two records. *)
Definition world_same_answer : world :=
  {| http_get := fun _ _ _ _ => found [job_ok; job_no_link];
     smtp_deliver := fun _ => None;
     utc_today := "2024-05-01" |}.

(** * Properties *)

#[local] Arguments String.append !s1 s2 / : simpl nomatch.

(** ** Strings *)

Lemma prefix_spec (k s : string) :
  String.prefix k s = true ↔ ∃ post, s = k ++ post.
Proof.
  revert s. induction k as [|a k IH]; intros s; simpl.
  - split; [intros _; by exists s | by destruct s].
  - destruct s as [|b s]; simpl.
    + split; [done | intros [post H]; discriminate H].
    + destruct (ascii_dec a b) as [->|Hne].
      * rewrite IH. split; intros [post H]; exists post.
        -- by rewrite H.
        -- by injection H.
      * split; [done | intros [post H]; injection H; congruence].
Qed.

Lemma contains_unfold (k s : string) :
  contains k s =
    String.prefix k s ||
    match s with EmptyString => false | String _ s' => contains k s' end.
Proof. by destruct s. Qed.

Lemma contains_spec (k s : string) : contains k s = true ↔ Substring k s.
Proof.
  induction s as [|c s IH];
    rewrite contains_unfold, orb_true_iff, prefix_spec.
  - split.
    + intros [[post H]|H]; [|done]. exists EmptyString, post. by simpl.
    + intros [pre [post H]]. left.
      destruct pre; [by exists post | discriminate H].
  - rewrite IH. split.
    + intros [[post H]|[pre [post H]]].
      * exists EmptyString, post. by simpl.
      * exists (String c pre), post. simpl. by rewrite H.
    + intros [pre [post H]]. destruct pre as [|c' pre]; simpl in H.
      * left. by exists post.
      * right. injection H as _ H. by exists pre, post.
Qed.

Lemma contains_false (k s : string) : contains k s = false ↔ ¬ Substring k s.
Proof.
  rewrite <- contains_spec. by destruct (contains k s).
Qed.

Lemma lower_app (a b : string) : lower (a ++ b) = lower a ++ lower b.
Proof. induction a as [|x a IH]; simpl; [done | by rewrite IH]. Qed.

Lemma lower_split (t a b : string) :
  lower t = a ++ b → ∃ t1 t2, t = t1 ++ t2 ∧ lower t1 = a ∧ lower t2 = b.
Proof.
  revert t. induction a as [|x a IH]; intros t H; simpl in H.
  - by exists EmptyString, t.
  - destruct t as [|c t]; simpl in H; [discriminate H|].
    injection H as Hc H. destruct (IH t H) as (t1 & t2 & -> & H1 & H2).
    exists (String c t1), t2. simpl. by rewrite Hc, H1.
Qed.

(** A keyword occurs in the lowered text exactly when some piece of the raw
    text is the keyword up to letter case. *)
Lemma contains_lower (k t : string) :
  Substring k (lower t) ↔ ∃ u, Substring u t ∧ lower u = k.
Proof.
  split.
  - intros (pre & post & H).
    apply lower_split in H as (t1 & t23 & -> & _ & H).
    apply lower_split in H as (u & t3 & -> & Hu & _).
    exists u. split; [by exists t1, t3 | done].
  - intros (u & (pre & post & ->) & <-).
    exists (lower pre), (lower post). by rewrite !lower_app.
Qed.

(** ** The interest filter *)

Lemma any_contains (ks : list string) (h : string) :
  py_any (fun k => contains k h) ks = true ↔ ∃ k, k ∈ ks ∧ Substring k h.
Proof.
  unfold py_any. rewrite existsb_exists. split.
  - intros (k & Hin & Hc). exists k.
    by rewrite list_elem_of_In, <- contains_spec.
  - intros (k & Hin & Hc). exists k.
    by rewrite <- list_elem_of_In, contains_spec.
Qed.

Lemma interesting_decide (h : string) :
  keywords_found h = true ↔ spec_interesting h.
Proof.
  unfold spec_interesting, keywords_found.
  rewrite andb_true_iff, !any_contains. apply and_iff_compat_l.
  split.
  - intros (k & Hin & Hs). exists k. split; [|done].
    by rewrite !elem_of_app in Hin.
  - intros (k & Hin & Hs). exists k. split; [|done].
    by rewrite !elem_of_app.
Qed.

(** The source computes the specification's haystack, and raises exactly when
    there is none. *)
Lemma matches_interest_haystack (job : value) :
  match spec_haystack job with
  | Some h => matches_interest job = Ok (keywords_found h)
  | None => matches_interest job = Raise WrongType
  end.
Proof.
  destruct job as [| | | | |d]; try done.
  unfold spec_haystack, matches_interest, spec_text_field; simpl.
  destruct (d !! "title") as [[]|]; simpl; try done;
    destruct (d !! "company_name") as [[]|]; simpl; try done;
    destruct (d !! "description") as [[]|]; simpl; try done.
Qed.

(** C1. The filter accepts a record exactly when its lowercase haystack (title,
    company name and description, a missing field read as the empty text,
    joined by spaces) contains an entry-level keyword and a keyword of one of
    the three role lists; it rejects exactly when the haystack exists and does
    not; containment is plain substring containment in the lowered text, that
    is containment up to letter case in the raw text. *)
Theorem matches_interest_iff (job : value) :
  (matches_interest job = Ok true ↔
     ∃ h, spec_haystack job = Some h ∧ spec_interesting h) ∧
  (matches_interest job = Ok false ↔
     ∃ h, spec_haystack job = Some h ∧ ¬ spec_interesting h) ∧
  (∀ k t, contains k (lower t) = true ↔ ∃ u, Substring u t ∧ lower u = k).
Proof.
  pose proof (matches_interest_haystack job) as H.
  split; [|split].
  - destruct (spec_haystack job) as [h|]; rewrite H.
    + split.
      * intros [= Hb]. exists h. by rewrite <- interesting_decide.
      * intros (h' & [= <-] & Hi). f_equal. by apply interesting_decide.
    + split; [done | by intros (h & ? & _)].
  - destruct (spec_haystack job) as [h|]; rewrite H.
    + split.
      * intros [= Hb]. exists h. split; [done|].
        rewrite <- interesting_decide. by rewrite Hb.
      * intros (h' & [= <-] & Hi). f_equal.
        rewrite <- interesting_decide in Hi. by apply not_true_is_false.
    + split; [done | by intros (h & ? & _)].
  - intros k t. by rewrite contains_spec, contains_lower.
Qed.

(** ** The fetching loop in closed form *)

Lemma m_bind_eq {A B} (m : M A) (k : A → M B) (s : state) :
  m_bind m k s =
    match m s with
    | (s', Ok a) => k a s'
    | (s', Raise e) => (s', Raise e)
    end.
Proof. reflexivity. Qed.

Lemma for_each_cons {A} (x : A) (xs : list A) (body : A → M unit) (s : state) :
  for_each (x :: xs) body s =
    match body x s with
    | (s', Ok _) => for_each xs body s'
    | (s', Raise e) => (s', Raise e)
    end.
Proof. reflexivity. Qed.

Lemma for_each_nil {A} (body : A → M unit) (s : state) :
  for_each [] body s = (s, Ok tt).
Proof. reflexivity. Qed.

#[local] Arguments m_bind : simpl never.
#[local] Arguments for_each : simpl never.

Lemma with_jobs_nil (s : state) : with_jobs s [] = s.
Proof. destruct s. unfold with_jobs; simpl. by rewrite app_nil_r. Qed.

Section Loop.
Variable rc : value → string.
Variable cfg : config.
Variable env : world.

Lemma filter_loop (items : list value) (s : state) :
  for_each items (fun j =>
    do keep <- m_lift (matches_interest j);
    if keep : bool then append_job j else m_ret tt) s
  = (with_jobs s (accepted_upto items).1,
     match (accepted_upto items).2 with
     | None => Ok tt
     | Some e => Raise e
     end).
Proof.
  revert s. induction items as [|j items IH]; intros s.
  - by rewrite for_each_nil, with_jobs_nil.
  - rewrite for_each_cons, m_bind_eq. unfold m_lift. simpl.
    destruct (matches_interest j) as [[]|e]; simpl.
    + rewrite IH. destruct (accepted_upto items) as [acc r]; simpl.
      unfold with_jobs; simpl. by rewrite <- app_assoc.
    + rewrite IH. by destruct (accepted_upto items) as [acc r].
    + by rewrite with_jobs_nil.
Qed.

Lemma try_pair (query loc : string) (s : state) :
  try_except (fetch_and_filter cfg env query loc)
    (fun e => emit (EvPrintFetchError query loc e)) s
  = (after_pair cfg env s (query, loc), Ok tt).
Proof.
  unfold try_except, fetch_and_filter, search_jobs.
  rewrite !m_bind_eq. unfold requests_get, m_lift.
  unfold after_pair, pair_events, pair_outcome, search_result, nth_outcome.
  simpl.
  destruct (response_jobs _) as [results|e]; simpl.
  - rewrite m_bind_eq.
    destruct (py_iter results) as [items|e]; simpl.
    + rewrite filter_loop; unfold with_jobs; simpl.
      destruct (accepted_upto items) as [acc [e|]]; simpl.
      * unfold emit; simpl. by rewrite <- app_assoc.
      * done.
    + unfold emit; simpl. by rewrite <- app_assoc, app_nil_r.
  - unfold emit; simpl. by rewrite <- app_assoc, app_nil_r.
Qed.

Lemma for_each_app {A} (xs ys : list A) (body : A → M unit) (s : state) :
  for_each (xs ++ ys)%list body s
  = (for_each xs body ;;; for_each ys body) s.
Proof.
  revert s. induction xs as [|x xs IH]; intros s; simpl.
  - by rewrite m_bind_eq, for_each_nil.
  - rewrite m_bind_eq, !for_each_cons.
    destruct (body x s) as [s' [[]|e]]; [|done].
    by rewrite IH, m_bind_eq.
Qed.

Lemma for_each_map {A B} (f : A → B) (xs : list A) (body : B → M unit)
    (s : state) :
  for_each (map f xs) body s = for_each xs (fun x => body (f x)) s.
Proof.
  revert s. induction xs as [|x xs IH]; intros s; simpl; [done|].
  rewrite !for_each_cons.
  destruct (body (f x) s) as [s' [[]|e]]; [apply IH|done].
Qed.

(** The two nested loops visit [pairs cfg] in order. *)
Lemma collect_jobs_pairs (s : state) :
  collect_jobs cfg env s = for_each (pairs cfg) (visit cfg env) s.
Proof.
  unfold collect_jobs, pairs. revert s.
  induction (JOB_QUERY_TERMS cfg) as [|query qs IH]; intros s; simpl; [done|].
  rewrite for_each_app, m_bind_eq, for_each_map, for_each_cons.
  unfold visit at 1; simpl.
  destruct (for_each (LOCATIONS cfg) _ s) as [s' [[]|e]]; [apply IH|done].
Qed.

Lemma visit_all (ps : list (string * string)) (s : state) :
  for_each ps (visit cfg env) s
  = ({| trace := (trace s ++ concat (imap (fun i p =>
            pair_events cfg p (nth_outcome cfg env (requests s + i) p)) ps))%list;
        requests := requests s + length ps;
        jobs_collected := (jobs_collected s ++ concat (imap (fun i p =>
            (pair_outcome (nth_outcome cfg env (requests s + i) p)).1) ps))%list |},
     Ok tt).
Proof.
  revert s. induction ps as [|[query loc] ps IH]; intros s.
  - rewrite for_each_nil. destruct s; simpl.
    by rewrite !app_nil_r, Nat.add_0_r.
  - rewrite for_each_cons. unfold visit at 1.
    cbn [fst snd]. rewrite try_pair, IH.
    unfold after_pair; cbn [trace requests jobs_collected].
    rewrite !imap_cons, !concat_cons, Nat.add_0_r, <- !app_assoc.
    f_equal. f_equal.
    + do 3 f_equal. apply imap_ext; intros i p _; simpl.
      by rewrite Nat.add_succ_r.
    + simpl. lia.
    + do 3 f_equal. apply imap_ext; intros i p _; simpl.
      by rewrite Nat.add_succ_r.
Qed.

Lemma collect_jobs_closed :
  collect_jobs cfg env initial
  = ({| trace := fetch_trace cfg env;
        requests := length (pairs cfg);
        jobs_collected := collected cfg env |}, Ok tt).
Proof. by rewrite collect_jobs_pairs, visit_all. Qed.

(** A run with a key is the fetching loop followed by the delivery of what
    it collected. *)
Lemma main_closed :
  key_missing cfg = false →
  main rc cfg env initial
  = ({| trace := (fetch_trace cfg env
                  ++ (deliver rc cfg env (collected cfg env)).1)%list;
        requests := length (pairs cfg);
        jobs_collected := collected cfg env |},
     (deliver rc cfg env (collected cfg env)).2).
Proof.
  intros Hk. unfold main. rewrite Hk.
  rewrite m_bind_eq, collect_jobs_closed, m_bind_eq.
  unfold read_jobs; simpl. rewrite m_bind_eq. unfold m_lift, deliver; simpl.
  destruct (build_email_html rc (collected cfg env)) as [html|e]; simpl.
  - unfold send_email. rewrite !m_bind_eq. unfold emit, digest_email; simpl.
    destruct (smtp_deliver env _) as [e|]; simpl.
    + done.
    + by rewrite <- app_assoc.
  - by rewrite app_nil_r.
Qed.

Lemma run_closed :
  key_missing cfg = false →
  run rc cfg env
  = ((fetch_trace cfg env ++ (deliver rc cfg env (collected cfg env)).1)%list,
     (deliver rc cfg env (collected cfg env)).2).
Proof. intros Hk. unfold run. by rewrite main_closed. Qed.

Lemma main_no_key :
  key_missing cfg = true → main rc cfg env initial = (initial, Raise MISSING_KEY).
Proof. intros Hk. unfold main. by rewrite Hk. Qed.

End Loop.

(** ** Inversion of the renderer's steps *)

Lemma bind_ok {A B} (m : result A) (f : A → result B) (b : B) :
  m ≫= f = Ok b → ∃ a, m = Ok a ∧ f a = Ok b.
Proof. destruct m as [a|e]; [by exists a | done]. Qed.

Lemma py_html_escape_ok (v : value) (q : bool) (s : string) :
  py_html_escape v q = Ok s → ∃ x, v = VStr x ∧ s = html_escape x q.
Proof. destruct v; try done. intros [= <-]. by eexists. Qed.

Lemma str_eqb_empty (l : string) :
  String.eqb l EmptyString = false ↔ l ≠ EmptyString.
Proof. apply String.eqb_neq. Qed.

Lemma link_rejected_false (link : value) :
  link_rejected link = Ok false →
  ∃ l, link = VStr l ∧ l ≠ EmptyString ∧ startswith l "http" = true.
Proof.
  unfold link_rejected. destruct (truthy link) eqn:Ht; simpl; [|done].
  destruct link as [| | |l| |]; try done; simpl.
  intros [= Hs]. exists l. split; [done|]. split.
  - apply str_eqb_empty. simpl in Ht. by destruct (String.eqb l EmptyString).
  - by destruct (startswith l "http").
Qed.

Lemma link_rejected_true (link : value) :
  link_rejected link = Ok true →
  ∀ l, link = VStr l → l = EmptyString ∨ startswith l "http" = false.
Proof.
  intros H l ->. destruct l as [|a l]; [by left | right].
  destruct (startswith (String a l) "http") eqn:Hs; [exfalso|done].
  unfold link_rejected, py_startswith in H. rewrite Hs in H. by simpl in H.
Qed.

Lemma snippet_of_ok (j : value) (s : string) :
  snippet_of j = Ok s →
  ∃ desc, py_get j "description" (VStr EmptyString) = Ok (VStr desc)
          ∧ s = html_escape (str_take 250 desc) true.
Proof.
  unfold snippet_of. intros H.
  apply bind_ok in H as (d & Hd & H).
  apply bind_ok in H as (cut & Hcut & H).
  apply py_html_escape_ok in H as (x & -> & ->).
  destruct d as [| | |desc| |]; try done.
  injection Hcut as <-. by exists desc.
Qed.

(** What a rendered item is made of. *)
Lemma render_item_some (rc : value → string) (j : value) (li : string) :
  render_item rc j = Ok (Some li) →
  ∃ t c l date link desc,
    py_get j "title" (VStr "N/A") = Ok (VStr t) ∧
    py_get j "company_name" (VStr EmptyString) = Ok (VStr c) ∧
    py_get j "location" (VStr EmptyString) = Ok (VStr l) ∧
    (py_get j "detected_extensions" (VDict ∅)
       ≫= fun ext => py_get ext "posted_at" (VStr "N/A")) = Ok date ∧
    chosen_link j = Ok (VStr link) ∧
    link ≠ EmptyString ∧ startswith link "http" = true ∧
    py_get j "description" (VStr EmptyString) = Ok (VStr desc) ∧
    snippet_of j = Ok (html_escape (str_take 250 desc) true) ∧
    li = item_html (html_escape link true) (html_escape t true)
           (html_escape c true) (html_escape l true) (py_str rc date)
           (html_escape (str_take 250 desc) true).
Proof.
  unfold render_item. intros H.
  apply bind_ok in H as (t & Ht & H).
  apply bind_ok in H as (title & Htitle & H).
  apply bind_ok in H as (c & Hc & H).
  apply bind_ok in H as (company & Hcompany & H).
  apply bind_ok in H as (l & Hl & H).
  apply bind_ok in H as (location & Hlocation & H).
  apply bind_ok in H as (ext & Hext & H).
  apply bind_ok in H as (date & Hdate & H).
  apply bind_ok in H as (link & Hlink & H).
  apply bind_ok in H as ([] & Hskip & H); [done|].
  apply bind_ok in H as (safe_link & Hsafe & H).
  apply bind_ok in H as (snippet & Hsnippet & H).
  injection H as <-.
  apply py_html_escape_ok in Htitle as (t' & -> & ->).
  apply py_html_escape_ok in Hcompany as (c' & -> & ->).
  apply py_html_escape_ok in Hlocation as (l' & -> & ->).
  apply link_rejected_false in Hskip as (link' & -> & Hne & Hhttp).
  apply py_html_escape_ok in Hsafe as (x & [= <-] & ->).
  pose proof Hsnippet as Hs.
  apply snippet_of_ok in Hs as (desc & Hdesc & ->).
  exists t', c', l', date, link', desc.
  repeat split; try done. by rewrite Hext.
Qed.

Lemma render_item_link_ok (rc : value → string) (j : value) (li : string) :
  render_item rc j = Ok (Some li) → link_ok j = true.
Proof.
  intros H. apply render_item_some in H
    as (t & c & l & date & link & desc & _ & _ & _ & _ & Hl & Hne & Hh & _).
  unfold link_ok. rewrite Hl, Hh.
  apply str_eqb_empty in Hne. by rewrite Hne.
Qed.

Lemma render_item_none (rc : value → string) (j : value) :
  render_item rc j = Ok None → link_ok j = false.
Proof.
  unfold render_item. intros H.
  apply bind_ok in H as (t & Ht & H).
  apply bind_ok in H as (title & Htitle & H).
  apply bind_ok in H as (c & Hc & H).
  apply bind_ok in H as (company & Hcompany & H).
  apply bind_ok in H as (l & Hl & H).
  apply bind_ok in H as (location & Hlocation & H).
  apply bind_ok in H as (ext & Hext & H).
  apply bind_ok in H as (date & Hdate & H).
  apply bind_ok in H as (link & Hlink & H).
  apply bind_ok in H as ([] & Hskip & H).
  - unfold link_ok. rewrite Hlink. destruct link as [| | |s| |]; try done.
    destruct (link_rejected_true _ Hskip s eq_refl) as [->|Hs]; [done|].
    rewrite Hs. apply andb_false_r.
  - apply bind_ok in H as (safe_link & Hsafe & H).
    apply bind_ok in H as (snippet & Hsnippet & H). done.
Qed.

(** The loop appends one item per record with a usable link, in order, and
    nothing for the others. *)
Lemma render_loop_items (rc : value → string) (jobs : list value)
    (acc content : list string) :
  render_loop rc jobs acc = Ok content →
  ∃ items, content = (acc ++ items)%list ∧
    Forall2 (fun j li => render_item rc j = Ok (Some li))
      (filter (fun j => link_ok j = true) jobs) items.
Proof.
  revert acc. induction jobs as [|j jobs IH]; intros acc H; simpl in H.
  - injection H as <-. exists []. split; [by rewrite app_nil_r | constructor].
  - apply bind_ok in H as (r & Hr & H).
    apply IH in H as (items & -> & Hitems). destruct r as [li|].
    + exists (li :: items). split; [by rewrite <- app_assoc|].
      rewrite filter_cons_True by by eapply render_item_link_ok.
      by constructor.
    + exists items. split; [done|].
      rewrite filter_cons_False; [done|].
      by rewrite (render_item_none _ _ Hr).
Qed.

(** ** The renderer *)

Lemma str_take_substring (n : nat) (s : string) :
  str_take n s = String.substring 0 n s.
Proof.
  revert s. induction n as [|n IH]; intros [|c s]; simpl; try done.
  by rewrite IH.
Qed.

Lemma str_take_length (n : nat) (s : string) :
  (String.length (str_take n s) ≤ n)%nat.
Proof.
  revert s. induction n as [|n IH]; intros [|c s]; simpl; try lia.
  specialize (IH s). lia.
Qed.

(** C10. When the apply link of a record is present but falsy, the chosen link
    is the generic [link] field, the record renders exactly as the same record
    without an apply link, and the anchor of a rendered item points to the
    escaped generic link. *)
Theorem empty_apply_link_falls_back (rc : value → string)
    (d : gmap string value) (a : value) :
  d !! "apply_link" = Some a →
  truthy a = false →
  chosen_link (VDict d) = Ok (default VNone (d !! "link")) ∧
  render_item rc (VDict d) = render_item rc (VDict (delete "apply_link" d)) ∧
  ∀ li, render_item rc (VDict d) = Ok (Some li) →
    ∃ l title company location date snippet,
      d !! "link" = Some (VStr l) ∧
      li = item_html (html_escape l true) title company location date snippet.
Proof.
  intros Ha Hf.
  assert (Hc : chosen_link (VDict d) = Ok (default VNone (d !! "link"))).
  { unfold chosen_link; simpl. by rewrite Ha; simpl; rewrite Hf. }
  assert (Hc' : chosen_link (VDict (delete "apply_link" d))
                = Ok (default VNone (d !! "link"))).
  { unfold chosen_link; simpl.
    by rewrite lookup_delete_eq; simpl; rewrite lookup_delete_ne. }
  split; [done|]. split.
  - unfold render_item. rewrite Hc, Hc'. unfold snippet_of; simpl.
    by rewrite !lookup_delete_ne.
  - intros li H. apply render_item_some in H
      as (t & c & l & date & link & desc & _ & _ & _ & _ & Hl & _ & _ & _ & _ & ->).
    rewrite Hc in Hl. injection Hl as Hl.
    exists link. do 5 eexists. split; [|done].
    by destruct (d !! "link") as [v|]; simpl in Hl; [rewrite Hl|].
Qed.

Lemma empty_apply_link_falls_back_witness :
  job_empty_apply !! "apply_link" = Some (VStr EmptyString) ∧
  chosen_link (VDict job_empty_apply)
  = Ok (default VNone (job_empty_apply !! "link")).
Proof.
  split; [reflexivity|].
  apply (empty_apply_link_falls_back no_repr job_empty_apply (VStr EmptyString));
    reflexivity.
Defined.

(** C4, as the code has it. A record is rendered only if its chosen link is a
    non-empty text that begins with [http]; a record whose chosen link is
    empty, missing or does not begin with [http] is never rendered. *)
Theorem rendered_link_begins_with_http (rc : value → string)
    (j : value) (li : string) :
  render_item rc j = Ok (Some li) →
  link_ok j = true ∧
  ∃ link, chosen_link j = Ok (VStr link) ∧ link ≠ EmptyString
          ∧ startswith link "http" = true.
Proof.
  intros H. split; [by eapply render_item_link_ok|].
  apply render_item_some in H
    as (t & c & l & date & link & desc & _ & _ & _ & _ & Hl & Hne & Hh & _).
  by exists link.
Qed.

Lemma rendered_link_begins_with_http_witness :
  link_ok job_ok = true ∧
  ∃ link, chosen_link job_ok = Ok (VStr link) ∧ link ≠ EmptyString
          ∧ startswith link "http" = true.
Proof.
  eapply (rendered_link_begins_with_http no_repr job_ok). reflexivity.
Defined.

(** C4, as stated, fails: a record whose link is [httpfoo] is rendered although
    the link is no absolute HTTP(S) URL. *)
Lemma rendered_link_not_a_url :
  (∃ li, render_item no_repr job_httpx = Ok (Some li)) ∧
  chosen_link job_httpx = Ok (VStr "httpfoo") ∧
  spec_absolute_http_url "httpfoo" = false.
Proof. split; [eexists; reflexivity | split; reflexivity]. Qed.

(** C5. The snippet of a rendered record is the escaping of the first 250
    characters of its raw description: it is cut first and escaped afterwards.
    The cut text has at most 250 characters; the escaped snippet can have
    more, and differs from what escaping first and cutting afterwards gives. *)
Theorem snippet_truncate_then_escape (rc : value → string)
    (j : value) (li : string) :
  render_item rc j = Ok (Some li) →
  (∃ desc safe_link title company location date,
     py_get j "description" (VStr EmptyString) = Ok (VStr desc) ∧
     snippet_of j = Ok (html_escape (String.substring 0 250 desc) true) ∧
     (String.length (String.substring 0 250 desc) ≤ 250)%nat ∧
     li = item_html safe_link title company location date
            (html_escape (String.substring 0 250 desc) true)) ∧
  (∃ desc,
     (250 < String.length (html_escape (String.substring 0 250 desc) true))%nat ∧
     html_escape (String.substring 0 250 desc) true
     ≠ String.substring 0 250 (html_escape desc true)).
Proof.
  intros H. split.
  - apply render_item_some in H
      as (t & c & l & date & link & desc & _ & _ & _ & _ & _ & _ & _ & Hd & Hs & ->).
    exists desc. do 5 eexists. rewrite <- str_take_substring.
    repeat split; try done. apply str_take_length.
  - exists (str_repeat c_amp 250 ++ "tail"). split.
    + vm_compute. lia.
    + intros Heq. apply (f_equal String.length) in Heq.
      vm_compute in Heq. discriminate Heq.
Qed.

Lemma snippet_truncate_then_escape_witness :
  ∃ desc,
    py_get job_ampersands "description" (VStr EmptyString) = Ok (VStr desc) ∧
    snippet_of job_ampersands
    = Ok (html_escape (String.substring 0 250 desc) true).
Proof.
  destruct (snippet_truncate_then_escape no_repr job_ampersands _ eq_refl)
    as [(desc & _ & _ & _ & _ & _ & Hd & Hs & _) _].
  by exists desc.
Defined.

(** ** What a run collects and sends *)

Lemma Forall_concat_imap {A B} (P : B → Prop) (f : nat → A → list B)
    (l : list A) :
  (∀ i x, Forall P (f i x)) → Forall P (concat (imap f l)).
Proof.
  revert f. induction l as [|x l IH]; intros f Hf; simpl; [constructor|].
  apply Forall_app. split; [apply Hf|]. apply IH. intros i y. apply Hf.
Qed.

Lemma accepted_upto_accepted (items : list value) :
  Forall (fun j => matches_interest j = Ok true) (accepted_upto items).1.
Proof.
  induction items as [|j items IH]; simpl; [constructor|].
  destruct (matches_interest j) as [[]|e] eqn:Hj; simpl; [| |constructor].
  - destruct (accepted_upto items) as [acc r]; simpl in *. by constructor.
  - by destruct (accepted_upto items) as [acc r].
Qed.

Lemma pair_outcome_accepted (o : http_outcome) :
  Forall (fun j => matches_interest j = Ok true) (pair_outcome o).1.
Proof.
  unfold pair_outcome. destruct (search_result o) as [items|e]; simpl.
  - apply accepted_upto_accepted.
  - constructor.
Qed.

Lemma collected_accepted (cfg : config) (env : world) :
  Forall (fun j => matches_interest j = Ok true) (collected cfg env).
Proof.
  apply Forall_concat_imap. intros i p. apply pair_outcome_accepted.
Qed.

Lemma fetch_trace_no_send (cfg : config) (env : world) :
  Forall (fun e => is_send e = false) (fetch_trace cfg env).
Proof.
  apply Forall_concat_imap. intros i p. unfold pair_events.
  destruct (pair_outcome _).2; repeat constructor.
Qed.

Lemma deliver_send (rc : value → string) (cfg : config) (env : world)
    (jobs : list value) (m : email) :
  EvSendEmail m ∈ (deliver rc cfg env jobs).1 →
  ∃ html_body, build_email_html rc jobs = Ok html_body
               ∧ m = digest_email cfg env jobs html_body.
Proof.
  unfold deliver. destruct (build_email_html rc jobs) as [html|e]; simpl.
  - intros H. exists html. split; [done|].
    destruct (smtp_deliver env _); simpl in H.
    + apply list_elem_of_singleton in H. by injection H.
    + apply elem_of_cons in H as [H|H]; [by injection H|].
      by apply list_elem_of_singleton in H.
  - by intros H%elem_of_nil.
Qed.

Lemma run_send (rc : value → string) (cfg : config) (env : world) (m : email) :
  EvSendEmail m ∈ (run rc cfg env).1 →
  key_missing cfg = false ∧
  ∃ html_body, build_email_html rc (collected cfg env) = Ok html_body
               ∧ m = digest_email cfg env (collected cfg env) html_body.
Proof.
  destruct (key_missing cfg) eqn:Hk.
  - unfold run. rewrite main_no_key by done. by intros H%elem_of_nil.
  - rewrite run_closed by done. simpl. intros H. split; [done|].
    apply elem_of_app in H as [H|H]; [|by apply deliver_send in H].
    pose proof (fetch_trace_no_send cfg env) as Hn.
    rewrite Forall_forall in Hn. by apply Hn in H.
Qed.

Lemma filter_link_split (jobs : list value) :
  length (filter (fun j => link_ok j = true) jobs)
  + length (filter (fun j => link_ok j = false) jobs) = length jobs.
Proof.
  induction jobs as [|j jobs IH]; [done|].
  rewrite !filter_cons. destruct (link_ok j); simpl; lia.
Qed.

Lemma filter_link_bad (jobs : list value) :
  Exists (fun j => link_ok j = false) jobs →
  0 < length (filter (fun j => link_ok j = false) jobs).
Proof.
  induction 1 as [j jobs Hj|j jobs _ IH]; rewrite filter_cons.
  - rewrite decide_True by done. simpl. lia.
  - destruct (decide _); simpl; lia.
Qed.

Lemma build_email_html_items (rc : value → string) (jobs : list value)
    (html_body : string) :
  build_email_html rc jobs = Ok html_body →
  ∃ items,
    Forall2 (fun j li => render_item rc j = Ok (Some li))
      (filter (fun j => link_ok j = true) jobs) items ∧
    html_body = match jobs with
                | [] => NO_JOBS
                | _ :: _ => join_strs nl (html_header ++ items ++ ["</ul>"])%list
                end.
Proof.
  destruct jobs as [|j jobs].
  - intros [= <-]. exists []. split; [constructor | done].
  - unfold build_email_html, html_content_of. intros H.
    apply bind_ok in H as (content & H & [= <-]).
    apply bind_ok in H as (body & H & [= <-]).
    apply render_loop_items in H as (items & -> & Hitems).
    exists items. split; [done|]. by rewrite <- app_assoc.
Qed.

(** C2. Whenever a run sends its email, the count in the subject is the number
    of collected records, all of which passed the filter; the body holds one
    list item per collected record whose chosen link is a non-empty text
    beginning with [http], and none for the others; so the count exceeds the
    number of list items as soon as one collected record has no such link. *)
Theorem subject_counts_unrendered_records (rc : value → string)
    (cfg : config) (env : world) (m : email) :
  EvSendEmail m ∈ (run rc cfg env).1 →
  ∃ jobs items,
    jobs = jobs_collected (main rc cfg env initial).1 ∧
    Forall (fun j => matches_interest j = Ok true) jobs ∧
    subject_line m = subject_of (length jobs) (utc_today env) ∧
    html_part m = match jobs with
                  | [] => NO_JOBS
                  | _ :: _ => join_strs nl (html_header ++ items ++ ["</ul>"])%list
                  end ∧
    Forall2 (fun j li => render_item rc j = Ok (Some li))
      (filter (fun j => link_ok j = true) jobs) items ∧
    length items + length (filter (fun j => link_ok j = false) jobs)
    = length jobs ∧
    (Exists (fun j => link_ok j = false) jobs → length items < length jobs).
Proof.
  intros H. apply run_send in H as (Hk & html & Hb & ->).
  apply build_email_html_items in Hb as (items & Hitems & ->).
  exists (collected cfg env), items.
  pose proof (filter_link_split (collected cfg env)) as Hsplit.
  pose proof (Forall2_length _ _ _ Hitems) as Hlen.
  repeat split; try done.
  - by rewrite main_closed.
  - apply collected_accepted.
  - lia.
  - intros Hbad%filter_link_bad. lia.
Qed.

Lemma subject_counts_unrendered_records_witness :
  let m := digest_email cfg_one world_no_link [job_no_link]
             (join_strs nl (html_header ++ ["</ul>"])%list) in
  EvSendEmail m ∈ (run no_repr cfg_one world_no_link).1 ∧
  ∃ (jobs : list value) (items : list string),
    subject_line m = subject_of (length jobs) "2024-05-01" ∧
    length jobs = 1 ∧ length items = 0.
Proof.
  intros m.
  assert (Hin : EvSendEmail m ∈ (run no_repr cfg_one world_no_link).1).
  { apply list_elem_of_In. right. left. reflexivity. }
  split; [exact Hin|].
  destruct (subject_counts_unrendered_records _ _ _ _ Hin)
    as (jobs & items & Hj & _ & Hs & _ & _ & Hlen & _).
  exists jobs, items. split; [exact Hs|].
  rewrite Hj in Hlen |- *. split; [reflexivity|].
  change (length items + 1 = 1) in Hlen. lia.
Defined.

(** ** Escaping *)

Lemma occurs_app (c : ascii) (a b : string) :
  occurs c (a ++ b) = occurs c a || occurs c b.
Proof.
  induction a as [|x a IH]; simpl; [done|]. by rewrite IH, orb_assoc.
Qed.

Lemma occurs_replace_same (c : ascii) (r s : string) :
  occurs c r = false → occurs c (replace_char c r s) = false.
Proof.
  intros Hr. induction s as [|a s IH]; simpl; [done|].
  destruct (Ascii.eqb a c) eqn:Ha; simpl.
  - by rewrite occurs_app, Hr, IH.
  - by rewrite Ha, IH.
Qed.

Lemma occurs_replace_other (c c' : ascii) (r s : string) :
  occurs c r = false → occurs c s = false →
  occurs c (replace_char c' r s) = false.
Proof.
  intros Hr. induction s as [|a s IH]; simpl; [done|].
  intros [Ha Hs]%orb_false_iff. destruct (Ascii.eqb a c'); simpl.
  - by rewrite occurs_app, Hr, IH.
  - by rewrite Ha, IH.
Qed.

(** With [quote], an escaped text holds none of the four characters the
    entities stand for. *)
Lemma html_escape_clean (s : string) (c : ascii) :
  c = c_lt ∨ c = c_gt ∨ c = c_quot ∨ c = c_apos →
  occurs c (html_escape s true) = false.
Proof.
  unfold html_escape. intros [-> | [-> | [-> | ->]]].
  - do 3 (apply occurs_replace_other; [done|]). by apply occurs_replace_same.
  - do 2 (apply occurs_replace_other; [done|]). by apply occurs_replace_same.
  - apply occurs_replace_other; [done|]. by apply occurs_replace_same.
  - by apply occurs_replace_same.
Qed.

(** C3, at the record whose posted date is [<script>alert(1)</script>]: the
    digest carries the date as it came, markup included, while the markup of
    the title is escaped. *)
Theorem posted_date_not_escaped (rc : value → string) :
  ∃ html_body,
    build_email_html rc [job_markup] = Ok html_body ∧
    Substring "<em>Posted:</em> <script>alert(1)</script><br/>" html_body ∧
    Substring "Junior &lt;i&gt;Python&lt;/i&gt; developer" html_body ∧
    ¬ Substring "<i>" html_body.
Proof.
  eexists. split; [reflexivity|].
  split; [|split].
  - by apply contains_spec; vm_compute.
  - by apply contains_spec; vm_compute.
  - by apply contains_false; vm_compute.
Qed.

(** ** The orchestrator *)

Lemma accepted_upto_prefix (items : list value) :
  ∃ seen rest,
    items = (seen ++ rest)%list ∧
    (accepted_upto items).1 = filter (fun j => accepts j = true) seen ∧
    Forall (fun j => is_ok (matches_interest j) = true) seen ∧
    match rest with
    | [] => (accepted_upto items).2 = None
    | j :: _ => ∃ e, matches_interest j = Raise e
                     ∧ (accepted_upto items).2 = Some e
    end.
Proof.
  induction items as [|j items (seen & rest & -> & Hacc & Hok & Hrest)].
  - exists [], []. by repeat split.
  - simpl. destruct (matches_interest j) as [keep|e] eqn:Hj.
    + exists (j :: seen), rest.
      destruct (accepted_upto (seen ++ rest)) as [acc r]; simpl in *.
      split; [done|]. split; [|split].
      * assert (Ha : accepts j = keep).
        { unfold accepts. rewrite Hj. by destruct keep. }
        destruct keep.
        -- rewrite filter_cons_True by done. by rewrite Hacc.
        -- rewrite filter_cons_False by (by rewrite Ha). done.
      * constructor; [by rewrite Hj | done].
      * done.
    + exists [], (j :: seen ++ rest)%list. repeat split; try done.
      by exists e.
Qed.

Lemma accepted_upto_all (items : list value) :
  Forall (fun j => is_ok (matches_interest j) = true) items →
  accepted_upto items = (filter (fun j => accepts j = true) items, None).
Proof.
  induction 1 as [|j items Hj _ IH]; [done|].
  simpl. rewrite IH.
  destruct (matches_interest j) as [keep|e] eqn:Hm; [|done].
  assert (Ha : accepts j = keep).
  { unfold accepts. rewrite Hm. by destruct keep. }
  destruct keep.
  - by rewrite filter_cons_True.
  - rewrite filter_cons_False; [done | by rewrite Ha].
Qed.

(** C6, as stated, fails: the record after the one with a [null] title passes
    the filter and comes from a successful call, and is not collected. *)
Lemma record_after_filter_error_not_collected :
  search_result (nth_outcome cfg_one world_null_title 0
                   ("Django developer", "Remote"))
  = Ok [job_ok; job_null_title; job_ok2] ∧
  matches_interest job_ok2 = Ok true ∧
  jobs_collected (main no_repr cfg_one world_null_title initial).1 = [job_ok] ∧
  spec_collected cfg_one world_null_title = [job_ok; job_ok2].
Proof. repeat split; by vm_compute. Qed.

(** C6, as the code has it. The collected records are the contributions of
    the pairs, term after term and location after location within a term;
    the contribution of a pair is empty when its call raises, and otherwise
    holds, in the order of the response and each once, the records that pass
    the filter among those before the first record the filter raises on; when
    the filter raises on no record of the response, these are all the
    records of the response that pass the filter.  The list items of the
    digest a run sends follow the same order: one item per collected record
    with a usable link, in the order the records were collected. *)
Theorem collected_in_discovery_order (rc : value → string)
    (cfg : config) (env : world) :
  key_missing cfg = false →
  jobs_collected (main rc cfg env initial).1
  = concat (imap (fun n p => (pair_outcome (nth_outcome cfg env n p)).1)
              (flat_map (fun query => map (fun loc => (query, loc)) (LOCATIONS cfg))
                 (JOB_QUERY_TERMS cfg))) ∧
  (∀ o,
     match search_result o with
     | Raise _ => (pair_outcome o).1 = []
     | Ok items =>
         ∃ seen rest,
           items = (seen ++ rest)%list ∧
           (pair_outcome o).1 = filter (fun j => accepts j = true) seen ∧
           Forall (fun j => is_ok (matches_interest j) = true) seen ∧
           match rest with
           | [] => True
           | j :: _ => is_ok (matches_interest j) = false
           end
     end) ∧
  (∀ o items,
     search_result o = Ok items →
     Forall (fun j => is_ok (matches_interest j) = true) items →
     (pair_outcome o).1 = spec_pair_accepted o) ∧
  (∀ m, EvSendEmail m ∈ (run rc cfg env).1 →
     ∃ items,
       Forall2 (fun j li => render_item rc j = Ok (Some li))
         (filter (fun j => link_ok j = true)
            (jobs_collected (main rc cfg env initial).1)) items ∧
       html_part m
       = match jobs_collected (main rc cfg env initial).1 with
         | [] => NO_JOBS
         | _ :: _ => join_strs nl (html_header ++ items ++ ["</ul>"])%list
         end).
Proof.
  intros Hk. split; [by rewrite main_closed|]. split; [|split].
  - intros o. unfold pair_outcome.
    destruct (search_result o) as [items|e]; [|done].
    destruct (accepted_upto_prefix items)
      as (seen & rest & Hi & Hacc & Hok & Hrest).
    exists seen, rest. repeat split; try done.
    destruct rest as [|j rest]; [done|].
    destruct Hrest as (e & He & _). by rewrite He.
  - intros o items Ho Hok. unfold pair_outcome, spec_pair_accepted.
    rewrite Ho. by rewrite accepted_upto_all.
  - intros m (_ & html & Hb & ->)%run_send. rewrite main_closed by done.
    simpl. by apply build_email_html_items.
Qed.

Lemma collected_in_discovery_order_witness :
  key_missing cfg_one = false ∧
  jobs_collected (main no_repr cfg_one world_null_title initial).1
  = concat (imap (fun n p =>
              (pair_outcome (nth_outcome cfg_one world_null_title n p)).1)
              (flat_map (fun query =>
                           map (fun loc => (query, loc)) (LOCATIONS cfg_one))
                 (JOB_QUERY_TERMS cfg_one))).
Proof.
  split; [reflexivity|].
  apply (collected_in_discovery_order no_repr cfg_one world_null_title).
  reflexivity.
Defined.

Lemma pair_outcome_raise (o : http_outcome) (e : exn) :
  response_jobs o = Raise e → pair_outcome o = ([], Some e).
Proof. intros H. unfold pair_outcome, search_result. by rewrite H. Qed.

Lemma requests_of_pairs (cfg : config) (f : nat → string * string → http_outcome)
    (ps : list (string * string)) :
  filter (fun e => is_request e = true)
    (concat (imap (fun n p => pair_events cfg p (f n p)) ps))
  = map (request_of cfg) ps.
Proof.
  revert f. induction ps as [|p ps IH]; intros f; [done|].
  rewrite imap_cons, concat_cons, filter_app. simpl map.
  rewrite <- (IH (fun n => f (S n))). unfold pair_events at 1.
  rewrite filter_cons_True by done. unfold request_of.
  by destruct (pair_outcome (f 0 p)).2.
Qed.

Lemma deliver_no_request (rc : value → string) (cfg : config) (env : world)
    (jobs : list value) :
  filter (fun e => is_request e = true) (deliver rc cfg env jobs).1 = [].
Proof.
  unfold deliver. destruct (build_email_html rc jobs); [|done].
  by destruct (smtp_deliver env _).
Qed.

Lemma concat_imap_nil {A B} (f : nat → A → list B) (l : list A) :
  (∀ i x, f i x = []) → concat (imap f l) = [].
Proof.
  revert f. induction l as [|x l IH]; intros f Hf; [done|].
  rewrite imap_cons, concat_cons, Hf. apply IH. intros i y. apply Hf.
Qed.

(** C7, as stated, fails: the first call times out and is skipped, the second
    returns a record with a [null] location, and the run ends in the
    renderer's exception without handing a digest to the relay. *)
Lemma failed_pair_then_render_error_sends_nothing :
  response_jobs (nth_outcome cfg_two world_timeout_then_null_location 0
                   ("entry level Full Stack Developer", "Remote"))
  = Raise (RequestException "timed out") ∧
  matches_interest job_null_location = Ok true ∧
  run no_repr cfg_two world_timeout_then_null_location
  = ([EvHttpGet SERPAPI_SEARCH_URL "entry level Full Stack Developer in Remote"
        (Some "key");
      EvPrintFetchError "entry level Full Stack Developer" "Remote"
        (RequestException "timed out");
      EvHttpGet SERPAPI_SEARCH_URL "Django developer in Remote" (Some "key")],
     Raise WrongType).
Proof. repeat split; by vm_compute. Qed.

(** C7, as the code has it. In a run with a key, each pair is requested once,
    in order, whatever happened to the pairs before it; a pair whose search
    call raises leaves its request followed by the log line with the term,
    the location and the exception, and adds no record; the run then goes on
    to render and send what it collected, and ends as the delivery ends: the
    digest, when it renders, is handed to the relay, and the run returns
    normally when the relay accepts it.  When every call raises, the digest
    is the "no jobs" paragraph; when rendering raises, the run ends with that
    exception and nothing is handed to the relay. *)
Theorem failed_pair_is_logged_and_skipped (rc : value → string)
    (cfg : config) (env : world) :
  key_missing cfg = false →
  (run rc cfg env).1
  = (concat (imap (fun n p => pair_events cfg p (nth_outcome cfg env n p))
               (pairs cfg))
     ++ (deliver rc cfg env (collected cfg env)).1)%list ∧
  (∀ n p e,
     response_jobs (nth_outcome cfg env n p) = Raise e →
     pair_events cfg p (nth_outcome cfg env n p)
     = [EvHttpGet SERPAPI_SEARCH_URL (p.1 ++ " in " ++ p.2) (SERPAPI_KEY cfg);
        EvPrintFetchError p.1 p.2 e] ∧
     (pair_outcome (nth_outcome cfg env n p)).1 = []) ∧
  filter (fun e => is_request e = true) (run rc cfg env).1
  = map (fun p => EvHttpGet SERPAPI_SEARCH_URL (p.1 ++ " in " ++ p.2)
                    (SERPAPI_KEY cfg)) (pairs cfg) ∧
  (∀ html_body,
     build_email_html rc (collected cfg env) = Ok html_body →
     let m := digest_email cfg env (collected cfg env) html_body in
     EvSendEmail m ∈ (run rc cfg env).1 ∧
     (run rc cfg env).2 = match smtp_deliver env m with
                          | None => Ok tt
                          | Some e => Raise e
                          end) ∧
  ((∀ n p, is_ok (response_jobs (nth_outcome cfg env n p)) = false) →
   build_email_html rc (collected cfg env) = Ok NO_JOBS) ∧
  (∀ e,
     build_email_html rc (collected cfg env) = Raise e →
     (run rc cfg env).2 = Raise e ∧
     Forall (fun ev => is_send ev = false) (run rc cfg env).1).
Proof.
  intros Hk. rewrite run_closed by done. simpl.
  split; [done|]. split; [|split; [|split; [|split]]].
  - intros n p e He. unfold pair_events.
    by rewrite (pair_outcome_raise _ _ He).
  - rewrite filter_app, deliver_no_request, app_nil_r.
    apply requests_of_pairs.
  - intros html Hb. unfold deliver. rewrite Hb. split.
    + apply elem_of_app. right.
      destruct (smtp_deliver env _); simpl; apply elem_of_cons; by left.
    + by destruct (smtp_deliver env _).
  - intros Hall. unfold collected. rewrite concat_imap_nil; [done|].
    intros n p. specialize (Hall n p).
    destruct (response_jobs (nth_outcome cfg env n p)) as [v|e] eqn:He;
      [done|].
    by rewrite (pair_outcome_raise _ _ He).
  - intros e Hb. unfold deliver. rewrite Hb. simpl. rewrite app_nil_r.
    split; [done | apply fetch_trace_no_send].
Qed.

Lemma failed_pair_is_logged_and_skipped_witness :
  key_missing cfg_two = false ∧
  response_jobs (nth_outcome cfg_two world_timeout 0
                   ("entry level Full Stack Developer", "Remote"))
  = Raise (RequestException "timed out") ∧
  filter (fun e => is_request e = true) (run no_repr cfg_two world_timeout).1
  = map (fun p => EvHttpGet SERPAPI_SEARCH_URL (p.1 ++ " in " ++ p.2)
                    (SERPAPI_KEY cfg_two)) (pairs cfg_two) ∧
  (run no_repr cfg_two world_timeout).2 = Ok tt.
Proof.
  split; [reflexivity|]. split; [reflexivity|].
  destruct (failed_pair_is_logged_and_skipped no_repr cfg_two world_timeout
              eq_refl) as (_ & _ & Hreq & Hsend & _).
  split; [exact Hreq|].
  destruct (Hsend _ eq_refl) as [_ Hres]. exact Hres.
Defined.

(** C8. Without an API key the run raises the configuration error at once:
    the trace is empty, so no search request and no SMTP session took place,
    and nothing was collected. *)
Theorem missing_key_aborts_before_network (rc : value → string)
    (cfg : config) (env : world) :
  SERPAPI_KEY cfg = None →
  run rc cfg env = ([], Raise MISSING_KEY) ∧
  main rc cfg env initial = (initial, Raise MISSING_KEY).
Proof.
  intros Hk. assert (Hm : key_missing cfg = true).
  { unfold key_missing. by rewrite Hk. }
  unfold run. by rewrite main_no_key.
Qed.

Lemma missing_key_aborts_before_network_witness :
  SERPAPI_KEY cfg_no_key = None ∧
  run no_repr cfg_no_key world_timeout = ([], Raise MISSING_KEY).
Proof.
  split; [reflexivity|].
  apply (missing_key_aborts_before_network no_repr cfg_no_key world_timeout).
  reflexivity.
Defined.

(** C9. Changing [MAX_RESULTS] and [MIN_DAYS_OLD], and nothing else, changes
    nothing of a run: from every state, [main] ends in the same state (trace,
    collected records) with the same result; in particular the collected
    records, the digest and the subject are the same. *)
Theorem limits_are_never_applied (rc : value → string) (cfg : config)
    (env : world) (max_results min_days_old : Z) :
  (∀ s, main rc (with_limits max_results min_days_old cfg) env s
        = main rc cfg env s) ∧
  run rc (with_limits max_results min_days_old cfg) env = run rc cfg env ∧
  collected (with_limits max_results min_days_old cfg) env = collected cfg env ∧
  (∀ jobs html_body,
     digest_email (with_limits max_results min_days_old cfg) env jobs html_body
     = digest_email cfg env jobs html_body).
Proof. repeat split. Qed.

(** * Further properties of the code *)

(** ** Configuration resolution *)

Lemma split_not_nil (sep : ascii) (s : string) : split sep s ≠ [].
Proof.
  destruct s as [|c s]; simpl; [done|].
  destruct (Ascii.eqb c sep); [done|]. by destruct (split sep s).
Qed.

Lemma join_strs_cons (sep x : string) (xs : list string) :
  xs ≠ [] → join_strs sep (x :: xs) = x ++ sep ++ join_strs sep xs.
Proof. by destruct xs. Qed.

Lemma occurs_false_eqb (c a : ascii) (s : string) :
  occurs c (String a s) = false → Ascii.eqb a c = false ∧ occurs c s = false.
Proof. simpl. by intros [? ?]%orb_false_iff. Qed.

(** [split] undoes [join] and [join] undoes [split]: cutting a text at the
    semicolons and joining the pieces with semicolons gives the text back, no
    piece holds the separator, there is one piece more than there are
    separators (so never none), and a non-empty list of separator-free pieces
    is what splitting its joined text gives. *)
Theorem split_join_round_trip (sep : ascii) :
  (∀ s, join_strs (String sep EmptyString) (split sep s) = s ∧
        Forall (fun piece => occurs sep piece = false) (split sep s) ∧
        length (split sep s) = S (count_char sep s)) ∧
  (∀ pieces, pieces ≠ [] →
     Forall (fun piece => occurs sep piece = false) pieces →
     split sep (join_strs (String sep EmptyString) pieces) = pieces).
Proof.
  split.
  - induction s as [|c s (IHj & IHf & IHl)]; simpl.
    + repeat split. by repeat constructor.
    + destruct (Ascii.eqb_spec c sep) as [->|Hne].
      * rewrite join_strs_cons by apply split_not_nil. rewrite IHj.
        repeat split; [by constructor | simpl; by rewrite IHl].
      * pose proof (split_not_nil sep s) as Hnn.
        destruct (split sep s) as [|piece rest]; [done|].
        apply Forall_cons in IHf as [Hp Hrest].
        repeat split.
        -- destruct rest as [|r rest]; simpl in *; by rewrite <- IHj.
        -- constructor; [|done]. simpl. rewrite Hp.
           by destruct (Ascii.eqb_spec c sep).
        -- simpl in *. by rewrite <- IHl.
  - induction pieces as [|p pieces IH]; [done|]. intros _ Hf.
    apply Forall_cons in Hf as [Hp Hrest].
    destruct pieces as [|q pieces].
    + clear IH Hrest. simpl. induction p as [|a p IHp]; [done|].
      apply occurs_false_eqb in Hp as [Ha Hp]. simpl. rewrite Ha.
      by rewrite (IHp Hp).
    + rewrite join_strs_cons by done.
      specialize (IH ltac:(done) Hrest). revert IH.
      generalize (join_strs (String sep EmptyString) (q :: pieces)).
      intros rest IH. clear Hrest.
      change (String sep EmptyString ++ rest) with (String sep rest).
      induction p as [|a p IHp]; simpl.
      * rewrite Ascii.eqb_refl. by rewrite IH.
      * apply occurs_false_eqb in Hp as [Ha Hp]. rewrite Ha.
        by rewrite (IHp Hp).
Qed.

Lemma split_join_round_trip_witness :
  split semicolon (join_strs (String semicolon EmptyString)
                     ["Django developer"; EmptyString; "junior ML engineer"])
  = ["Django developer"; EmptyString; "junior ML engineer"].
Proof.
  apply (split_join_round_trip semicolon); [done|].
  repeat constructor.
Defined.

Lemma getenv_int_none (py_int : string → option Z)
    (environ : gmap string string) (name : string) (dflt : Z) :
  getenv_int py_int environ name dflt = None ↔
  ∃ s, environ !! name = Some s ∧ py_int s = None.
Proof.
  unfold getenv_int. destruct (environ !! name) as [s|].
  - split; [intros H; by exists s | by intros (s' & [= <-] & H)].
  - split; [done | by intros (s' & ? & _)].
Qed.

(** The globals cannot be set up exactly when one of the three numeric
    variables is set to a text [int] refuses: the SMTP port, or one of the two
    limits no stage of the pipeline reads. *)
Theorem load_config_fails_iff (py_int : string → option Z)
    (environ : gmap string string) :
  load_config py_int environ = None ↔
  ∃ name s,
    (name = "EMAIL_SMTP_PORT" ∨ name = "MAX_RESULTS" ∨ name = "MIN_DAYS_OLD") ∧
    environ !! name = Some s ∧ py_int s = None.
Proof.
  unfold load_config.
  destruct (getenv_int py_int environ "EMAIL_SMTP_PORT" 587) as [port|] eqn:Hp;
    simpl.
  - destruct (getenv_int py_int environ "MAX_RESULTS" 25) as [mx|] eqn:Hx;
      simpl.
    + destruct (getenv_int py_int environ "MIN_DAYS_OLD" 4) as [mn|] eqn:Hn;
        simpl.
      * split; [done|]. intros (name & s & [-> | [-> | ->]] & Hs & Hi).
        -- assert (getenv_int py_int environ "EMAIL_SMTP_PORT" 587 = None)
             by (apply getenv_int_none; eauto). congruence.
        -- assert (getenv_int py_int environ "MAX_RESULTS" 25 = None)
             by (apply getenv_int_none; eauto). congruence.
        -- assert (getenv_int py_int environ "MIN_DAYS_OLD" 4 = None)
             by (apply getenv_int_none; eauto). congruence.
      * split; [intros _|done].
        apply getenv_int_none in Hn as (s & Hs & Hi). exists "MIN_DAYS_OLD", s.
        eauto.
    + split; [intros _|done].
      apply getenv_int_none in Hx as (s & Hs & Hi). exists "MAX_RESULTS", s.
      eauto.
  - split; [intros _|done].
    apply getenv_int_none in Hp as (s & Hs & Hi). exists "EMAIL_SMTP_PORT", s.
    eauto.
Qed.

(** ** The interest filter *)

Lemma matches_interest_of_haystack (j j' : value) :
  spec_haystack j = spec_haystack j' → matches_interest j = matches_interest j'.
Proof.
  intros H. pose proof (matches_interest_haystack j) as Hj.
  pose proof (matches_interest_haystack j') as Hj'. rewrite <- H in Hj'.
  destruct (spec_haystack j); congruence.
Qed.

Lemma spec_text_field_is_some (d : gmap string value) (key : string) :
  is_Some (spec_text_field d key) ↔ text_or_missing d key = true.
Proof.
  unfold spec_text_field, text_or_missing.
  destruct (d !! key) as [[]|]; simpl; split; try done;
    by intros [? ?].
Qed.

(** The filter raises exactly on what is not a record, or is a record whose
    title, company name or description is present and not a text (a JSON
    [null] included); on every other record it answers. *)
Theorem filter_answers_iff_text_fields (job : value) :
  is_ok (matches_interest job) =
    match job with
    | VDict d =>
        text_or_missing d "title" && text_or_missing d "company_name" &&
        text_or_missing d "description"
    | _ => false
    end.
Proof.
  pose proof (matches_interest_haystack job) as H.
  destruct job as [| | | | |d]; try (by rewrite H).
  unfold spec_haystack, spec_text_field, text_or_missing in *.
  destruct (d !! "title") as [[]|]; simpl in *; try (by rewrite H);
    destruct (d !! "company_name") as [[]|]; simpl in *; try (by rewrite H);
    destruct (d !! "description") as [[]|]; simpl in *; by rewrite H.
Qed.

Lemma spec_text_field_insert_ne (d : gmap string value) (k key : string)
    (v : value) :
  k ≠ key → spec_text_field (<[k:=v]> d) key = spec_text_field d key.
Proof. intros H. unfold spec_text_field. by rewrite lookup_insert_ne. Qed.

Lemma spec_text_field_insert_eq (d : gmap string value) (key s : string) :
  spec_text_field (<[key:=VStr s]> d) key = Some s.
Proof. unfold spec_text_field. by rewrite lookup_insert_eq. Qed.

Lemma spec_text_field_delete_ne (d : gmap string value) (k key : string) :
  k ≠ key → spec_text_field (delete k d) key = spec_text_field d key.
Proof. intros H. unfold spec_text_field. by rewrite lookup_delete_ne. Qed.

(** The filter reads nothing but the title, the company name and the
    description: setting or removing any other field of a record (its links,
    its location, its dates) leaves the verdict, or the exception, as it was. *)
Theorem filter_ignores_other_fields (d : gmap string value) (k : string)
    (v : value) :
  ¬ filter_field k →
  matches_interest (VDict (<[k:=v]> d)) = matches_interest (VDict d) ∧
  matches_interest (VDict (delete k d)) = matches_interest (VDict d).
Proof.
  intros Hk. unfold filter_field in Hk.
  split; apply matches_interest_of_haystack; unfold spec_haystack.
  - rewrite !spec_text_field_insert_ne; [done|..]; naive_solver.
  - rewrite !spec_text_field_delete_ne; [done|..]; naive_solver.
Qed.

Lemma filter_ignores_other_fields_witness :
  matches_interest (VDict (<["link" := VNone]> job_empty_apply))
  = matches_interest (VDict job_empty_apply).
Proof.
  apply (filter_ignores_other_fields job_empty_apply "link" VNone).
  unfold filter_field. intros [H|[H|H]]; discriminate H.
Defined.

(** The verdict does not depend on the letter case of the three fields: two
    texts with the same lowering in the same field give the same verdict. *)
Theorem filter_ignores_letter_case (d : gmap string value) (k s s' : string) :
  filter_field k →
  lower s = lower s' →
  matches_interest (VDict (<[k:=VStr s]> d))
  = matches_interest (VDict (<[k:=VStr s']> d)).
Proof.
  intros Hk Hl. apply matches_interest_of_haystack. unfold spec_haystack.
  destruct Hk as [-> | [-> | ->]].
  - rewrite !spec_text_field_insert_eq, !spec_text_field_insert_ne by done.
    simpl. destruct (spec_text_field d "company_name"); simpl; [|done].
    destruct (spec_text_field d "description"); simpl; [|done].
    repeat first [rewrite lower_app | progress simpl]. by rewrite Hl.
  - rewrite !spec_text_field_insert_eq, !spec_text_field_insert_ne by done.
    destruct (spec_text_field d "title"); simpl; [|done].
    destruct (spec_text_field d "description"); simpl; [|done].
    repeat first [rewrite lower_app | progress simpl]. by rewrite Hl.
  - rewrite !spec_text_field_insert_eq, !spec_text_field_insert_ne by done.
    destruct (spec_text_field d "title"); simpl; [|done].
    destruct (spec_text_field d "company_name"); simpl; [|done].
    repeat first [rewrite lower_app | progress simpl]. by rewrite Hl.
Qed.

Lemma filter_ignores_letter_case_witness :
  matches_interest (VDict (<["title" := VStr "JUNIOR PYTHON DEVELOPER"]> ∅))
  = matches_interest (VDict (<["title" := VStr "Junior Python developer"]> ∅)).
Proof.
  apply (filter_ignores_letter_case ∅ "title"); [by left | reflexivity].
Defined.

Lemma keywords_found_mono (h h' : string) :
  (∀ k, Substring k h → Substring k h') →
  keywords_found h = true → keywords_found h' = true.
Proof.
  intros Hsub. rewrite !interesting_decide. unfold spec_interesting.
  intros [(k & Hk & Hs) (k' & Hk' & Hs')]. split.
  - exists k. auto.
  - exists k'. auto.
Qed.

Lemma matches_interest_true (job : value) :
  matches_interest job = Ok true ↔
  ∃ h, spec_haystack job = Some h ∧ keywords_found h = true.
Proof.
  pose proof (matches_interest_haystack job) as H.
  destruct (spec_haystack job) as [h|]; rewrite H.
  - split; [intros [= Hk]; by exists h | by intros (h' & [= <-] & ->)].
  - split; [done | by intros (h' & ? & _)].
Qed.

Lemma string_app_assoc (a b c : string) : (a ++ b) ++ c = a ++ b ++ c.
Proof. induction a as [|x a IH]; simpl; [done | by rewrite IH]. Qed.

(** Text added after the description, or before the title, never turns an
    accepted record into a rejected one. *)
Theorem filter_monotone_in_outer_text (d : gmap string value)
    (t x extra : string) :
  spec_text_field d "title" = Some t →
  spec_text_field d "description" = Some x →
  matches_interest (VDict d) = Ok true →
  matches_interest (VDict (<["description" := VStr (x ++ extra)]> d)) = Ok true ∧
  matches_interest (VDict (<["title" := VStr (extra ++ t)]> d)) = Ok true.
Proof.
  intros Ht Hx (h & Hh & Hk)%matches_interest_true.
  unfold spec_haystack in Hh. rewrite Ht, Hx in Hh. simpl in Hh.
  destruct (spec_text_field d "company_name") as [c|] eqn:Hc; [|done].
  simpl in Hh. injection Hh as <-.
  set (h := lower _) in Hk.
  split; apply matches_interest_true; unfold spec_haystack.
  - rewrite spec_text_field_insert_eq, !spec_text_field_insert_ne by done.
    rewrite Ht, Hc. simpl.
    exists (h ++ lower extra). split.
    + f_equal. unfold h. rewrite <- lower_app. f_equal.
      by repeat first [rewrite string_app_assoc | progress simpl].
    + eapply keywords_found_mono; [|exact Hk].
      intros k (pre & post & ->). exists pre, (post ++ lower extra).
      by rewrite !string_app_assoc.
  - rewrite spec_text_field_insert_eq, !spec_text_field_insert_ne by done.
    rewrite Hx, Hc. simpl.
    exists (lower extra ++ h). split.
    + f_equal. unfold h. rewrite <- lower_app. f_equal.
      by rewrite string_app_assoc.
    + eapply keywords_found_mono; [|exact Hk].
      intros k (pre & post & ->). exists (lower extra ++ pre), post.
      by rewrite !string_app_assoc.
Qed.

Lemma filter_monotone_in_outer_text_witness :
  matches_interest
    (VDict (<["description" := VStr (EmptyString ++ ", senior staff only")]>
              job_empty_apply)) = Ok true.
Proof.
  apply (filter_monotone_in_outer_text job_empty_apply
           "Junior Python developer" EmptyString ", senior staff only");
    reflexivity.
Defined.

Lemma substring_app_r (k h e : string) : Substring k h → Substring k (h ++ e).
Proof.
  intros (pre & post & ->). exists pre, (post ++ e).
  by rewrite !string_app_assoc.
Qed.

Lemma substring_app_l (k h e : string) : Substring k h → Substring k (e ++ h).
Proof.
  intros (pre & post & ->). exists (e ++ pre), post.
  by rewrite !string_app_assoc.
Qed.

(** The three fields are joined before the search, so a keyword made of two
    words is also found when the title ends with the first word and the
    company name begins with the second: a record titled "... Entry" of a
    company "Level ..." counts as entry level. *)
Theorem keyword_found_across_fields (d : gmap string value) (a b x : string) :
  d !! "title" = Some (VStr (a ++ "Entry")) →
  d !! "company_name" = Some (VStr ("Level" ++ b)) →
  spec_text_field d "description" = Some x →
  py_any (fun k => contains k (lower x))
    (AI_ML_KEYWORDS ++ DJANGO_KEYWORDS ++ FULLSTACK_KEYWORDS)%list = true →
  matches_interest (VDict d) = Ok true.
Proof.
  intros Ht Hc Hx Hrole. apply matches_interest_true.
  assert (Ht' : spec_text_field d "title" = Some (a ++ "Entry"))
    by (unfold spec_text_field; by rewrite Ht).
  assert (Hc' : spec_text_field d "company_name" = Some ("Level" ++ b))
    by (unfold spec_text_field; by rewrite Hc).
  unfold spec_haystack. rewrite Ht', Hc', Hx.
  exists (lower ((a ++ "Entry") ++ " " ++ ("Level" ++ b) ++ " " ++ x)).
  split; [done|].
  assert (Hh : lower ((a ++ "Entry") ++ " " ++ ("Level" ++ b) ++ " " ++ x)
               = (lower a ++ "entry level" ++ lower b ++ " ") ++ lower x).
  { repeat first [rewrite lower_app | progress simpl].
    by repeat first [rewrite string_app_assoc | progress simpl]. }
  rewrite Hh. unfold keywords_found. apply andb_true_iff. split.
  - apply any_contains. exists "entry level". split; [set_solver|].
    apply substring_app_r. by exists (lower a), (lower b ++ " ").
  - apply any_contains. apply any_contains in Hrole as (k & Hk & Hs).
    exists k. split; [done|]. by apply substring_app_l.
Qed.

Lemma keyword_found_across_fields_witness :
  matches_interest
    (VDict (list_to_map
       [ ("title", VStr ("Data " ++ "Entry"));
         ("company_name", VStr ("Level" ++ " Up Ltd"));
         ("description", VStr "Typing and some Python scripting") ]))
  = Ok true.
Proof.
  apply (keyword_found_across_fields _ "Data " " Up Ltd"
           "Typing and some Python scripting"); reflexivity.
Defined.

Lemma lower_char_idem (c : ascii) : lower_char (lower_char c) = lower_char c.
Proof. by destruct c as [[] [] [] [] [] [] [] []]. Qed.

Lemma lower_idem (s : string) : lower (lower s) = lower s.
Proof.
  induction s as [|c s IH]; simpl; [done|]. by rewrite lower_char_idem, IH.
Qed.

(** A keyword can only ever be found if it is written in lower case, since it
    is looked up in the lowered text; each keyword of the four lists is. *)
Theorem keywords_are_lower_case :
  (∀ k t, contains k (lower t) = true → lower k = k) ∧
  Forall (fun k => lower k = k)
    (ENTRY_KEYWORDS ++ AI_ML_KEYWORDS ++ DJANGO_KEYWORDS
     ++ FULLSTACK_KEYWORDS)%list.
Proof.
  split.
  - intros k t (u & _ & <-)%contains_spec%contains_lower. apply lower_idem.
  - repeat constructor.
Qed.

(** ** The digest renderer *)

Lemma render_loop_ok (rc : value → string) (jobs : list value)
    (acc : list string) :
  is_ok (render_loop rc jobs acc)
  = forallb (fun j => is_ok (render_item rc j)) jobs.
Proof.
  revert acc. induction jobs as [|j jobs IH]; intros acc; simpl; [done|].
  destruct (render_item rc j) as [r|e]; simpl; [apply IH | done].
Qed.

Lemma build_email_html_ok (rc : value → string) (jobs : list value) :
  is_ok (build_email_html rc jobs)
  = forallb (fun j => is_ok (render_item rc j)) jobs.
Proof.
  destruct jobs as [|j jobs]; [done|].
  rewrite <- (render_loop_ok rc (j :: jobs) html_header).
  unfold build_email_html, html_content_of.
  by destruct (render_loop rc (j :: jobs) html_header).
Qed.

Lemma is_ok_true {A} (r : result A) : is_ok r = true ↔ ∃ a, r = Ok a.
Proof.
  destruct r as [a|e]; simpl; split; try done; [by exists a | by intros [? ?]].
Qed.

(** Rendering succeeds exactly when the loop succeeds on every record: a
    single record the loop raises on loses the whole digest. *)
Theorem digest_renders_iff_every_record_does (rc : value → string)
    (jobs : list value) :
  (∃ html_body, build_email_html rc jobs = Ok html_body) ↔
  ∀ j, j ∈ jobs → ∃ r, render_item rc j = Ok r.
Proof.
  rewrite <- is_ok_true, build_email_html_ok, forallb_forall.
  split; intros H j Hj.
  - apply is_ok_true, H. by apply list_elem_of_In.
  - apply is_ok_true, H. by apply list_elem_of_In.
Qed.

(** The "no jobs" paragraph is the digest of the empty list only: a non-empty
    list never renders to it, whatever its records. *)
Theorem no_jobs_paragraph_iff_empty (rc : value → string) (jobs : list value) :
  build_email_html rc jobs = Ok NO_JOBS ↔ jobs = [].
Proof.
  split; [|by intros ->].
  intros H. destruct jobs as [|j jobs]; [done|]. exfalso.
  apply build_email_html_items in H as (items & _ & H).
  simpl in H. discriminate H.
Qed.

(** When none of a non-empty list of records has a usable link, the digest
    that renders is the header and an empty list, not the "no jobs"
    paragraph. *)
Theorem unusable_links_give_empty_list (rc : value → string)
    (jobs : list value) (html_body : string) :
  jobs ≠ [] →
  Forall (fun j => link_ok j = false) jobs →
  build_email_html rc jobs = Ok html_body →
  html_body = join_strs nl (html_header ++ ["</ul>"])%list ∧
  html_body ≠ NO_JOBS.
Proof.
  intros Hne Hbad H.
  apply build_email_html_items in H as (items & Hitems & ->).
  destruct jobs as [|j jobs]; [done|].
  assert (Hnil : filter (fun j => link_ok j = true) (j :: jobs) = []).
  { clear Hitems Hne. induction Hbad as [|x xs Hx _ IH]; [done|].
    rewrite filter_cons_False; [done | by rewrite Hx]. }
  rewrite Hnil in Hitems. apply Forall2_nil_inv_l in Hitems as ->.
  split; [done | by simpl].
Qed.

Lemma unusable_links_give_empty_list_witness :
  ∃ html_body,
    build_email_html no_repr [job_no_link] = Ok html_body ∧
    html_body = join_strs nl (html_header ++ ["</ul>"])%list ∧
    html_body ≠ NO_JOBS.
Proof.
  eexists. split; [reflexivity|].
  apply (unusable_links_give_empty_list no_repr [job_no_link]);
    [done | by repeat constructor | reflexivity].
Defined.

(** In a rendered item the link, the title, the company, the location and the
    snippet hold none of the characters [<], [>], the double and the single
    quotation mark; the posted date is put in as [str] gives it. *)
Theorem rendered_fields_are_escaped (rc : value → string) (j : value)
    (li : string) :
  render_item rc j = Ok (Some li) →
  ∃ link title company location date snippet,
    (py_get j "detected_extensions" (VDict ∅)
       ≫= fun ext => py_get ext "posted_at" (VStr "N/A")) = Ok date ∧
    li = item_html link title company location (py_str rc date) snippet ∧
    ∀ c, c = c_lt ∨ c = c_gt ∨ c = c_quot ∨ c = c_apos →
      occurs c link = false ∧ occurs c title = false ∧
      occurs c company = false ∧ occurs c location = false ∧
      occurs c snippet = false.
Proof.
  intros H. apply render_item_some in H
    as (t & c & l & date & link & desc & _ & _ & _ & Hd & _ & _ & _ & _ & _ & ->).
  do 6 eexists. split; [exact Hd|]. split; [done|].
  intros ch Hch. repeat split; by apply html_escape_clean.
Qed.

Lemma rendered_fields_are_escaped_witness :
  ∃ link title company location date snippet : string,
    render_item no_repr job_markup
    = Ok (Some (item_html link title company location date snippet)) ∧
    occurs c_lt link = false ∧ occurs c_lt title = false.
Proof.
  destruct (rendered_fields_are_escaped no_repr job_markup _ eq_refl)
    as (link & title & company & location & date & snippet & _ & Hli & Hc).
  exists link, title, company, location, (py_str no_repr date), snippet.
  destruct (Hc c_lt (or_introl eq_refl)) as (Hl & Ht & _).
  split; [by rewrite <- Hli | by split].
Defined.

Lemma text_field_escapes (d : gmap string value) (key dflt : string) :
  text_or_missing d key = true →
  ∃ s, py_html_escape (default (VStr dflt) (d !! key)) true = Ok s.
Proof.
  unfold text_or_missing. destruct (d !! key) as [[]|]; simpl; try done;
    intros _; by eexists.
Qed.

Lemma chosen_link_shape (d : gmap string value) :
  link_or_nothing d "apply_link" = true →
  link_or_nothing d "link" = true →
  ∃ v, chosen_link (VDict d) = Ok v ∧ is_str v || negb (truthy v) = true.
Proof.
  unfold link_or_nothing, chosen_link. simpl.
  destruct (d !! "apply_link") as [a|]; simpl.
  - intros Ha Hl. destruct (truthy a) eqn:Ht.
    + exists a. split; [done|]. by rewrite Ht in *.
    + destruct (d !! "link") as [l|]; simpl; [by exists l | by exists VNone].
  - intros _ Hl.
    destruct (d !! "link") as [l|]; simpl; [by exists l | by exists VNone].
Qed.

Lemma link_rejected_shape (v : value) :
  is_str v || negb (truthy v) = true →
  link_rejected v = Ok true ∨ (link_rejected v = Ok false ∧ is_str v = true).
Proof.
  unfold link_rejected. destruct (truthy v) eqn:Ht; simpl; [|by left].
  rewrite orb_false_r. destruct v; try done. intros _. simpl.
  destruct (startswith s "http"); simpl; [by right | by left].
Qed.

Lemma render_item_renderable (rc : value → string) (j : value) :
  renderable j = true → ∃ r, render_item rc j = Ok r.
Proof.
  destruct j as [| | | | |d]; try done. unfold renderable.
  rewrite !andb_true_iff.
  intros ((((((Ht & Hc) & Hl) & Hd) & He) & Ha) & Hk).
  unfold render_item. simpl.
  destruct (text_field_escapes d "title" "N/A" Ht) as (t & ->).
  destruct (text_field_escapes d "company_name" EmptyString Hc) as (c & ->).
  destruct (text_field_escapes d "location" EmptyString Hl) as (l & ->).
  simpl.
  assert (Hext : ∃ date,
    py_get (default (VDict ∅) (d !! "detected_extensions")) "posted_at"
      (VStr "N/A") = Ok date).
  { destruct (d !! "detected_extensions") as [[]|]; try done; by eexists. }
  destruct Hext as (date & ->). simpl.
  destruct (chosen_link_shape d Ha Hk) as (v & -> & Hv). simpl.
  destruct (link_rejected_shape v Hv) as [-> | [-> Hs]]; simpl;
    [by eexists|].
  destruct v as [| | |link| |]; try done. simpl.
  unfold snippet_of. simpl.
  unfold text_or_missing in Hd.
  destruct (d !! "description") as [[]|]; try done; simpl; by eexists.
Qed.

(** A list of records whose text fields are texts or missing, whose
    [detected_extensions] is an object or missing and whose links are texts,
    falsy or missing always renders. *)
Theorem renderable_records_render (rc : value → string) (jobs : list value) :
  Forall (fun j => renderable j = true) jobs →
  ∃ html_body, build_email_html rc jobs = Ok html_body.
Proof.
  intros H. apply is_ok_true. rewrite build_email_html_ok.
  apply forallb_forall. intros j Hj%list_elem_of_In.
  rewrite Forall_forall in H. apply is_ok_true.
  by apply render_item_renderable, H.
Qed.

Lemma renderable_records_render_witness :
  ∃ html_body,
    build_email_html no_repr [job_ok; job_no_link; job_markup] = Ok html_body.
Proof.
  apply (renderable_records_render no_repr [job_ok; job_no_link; job_markup]).
  by repeat constructor.
Defined.

(** ** The orchestrator *)

Lemma length_pairs (cfg : config) :
  length (pairs cfg) = length (JOB_QUERY_TERMS cfg) * length (LOCATIONS cfg).
Proof.
  unfold pairs. induction (JOB_QUERY_TERMS cfg) as [|q qs IH]; simpl; [done|].
  by rewrite length_app, length_map, IH.
Qed.

Lemma run_requests_closed (rc : value → string) (cfg : config) (env : world) :
  key_missing cfg = false →
  filter (fun e => is_request e = true) (run rc cfg env).1
  = map (request_of cfg) (pairs cfg).
Proof.
  intros Hk. rewrite run_closed by done. simpl.
  rewrite filter_app, deliver_no_request, app_nil_r.
  apply requests_of_pairs.
Qed.

Lemma deliver_sends_once (rc : value → string) (cfg : config) (env : world)
    (jobs : list value) :
  (length (filter (fun e => is_send e = true) (deliver rc cfg env jobs).1)
   ≤ 1)%nat
  ∧ Forall (fun e => is_request e = false) (deliver rc cfg env jobs).1.
Proof.
  unfold deliver. destruct (build_email_html rc jobs); simpl.
  - destruct (smtp_deliver env _); simpl; split; try lia;
      by repeat constructor.
  - split; [lia | constructor].
Qed.

Lemma filter_none {A} (P : A → bool) (l : list A) :
  Forall (fun x => P x = false) l → filter (fun x => P x = true) l = [].
Proof.
  induction 1 as [|x l Hx _ IH]; [done|].
  rewrite filter_cons_False; [done | by rewrite Hx].
Qed.

(** A run with a key makes one request per (term, location) pair, so as many
    as there are terms times locations, whatever the answers; it hands at most
    one message to the relay, and only after the last request. *)
Theorem one_request_per_pair_then_one_email (rc : value → string)
    (cfg : config) (env : world) :
  key_missing cfg = false →
  length (filter (fun e => is_request e = true) (run rc cfg env).1)
  = length (JOB_QUERY_TERMS cfg) * length (LOCATIONS cfg) ∧
  (length (filter (fun e => is_send e = true) (run rc cfg env).1) ≤ 1)%nat ∧
  ∃ before after,
    (run rc cfg env).1 = (before ++ after)%list ∧
    Forall (fun e => is_send e = false) before ∧
    Forall (fun e => is_request e = false) after.
Proof.
  intros Hk. split; [|split].
  - by rewrite run_requests_closed, length_map, length_pairs.
  - rewrite run_closed by done. simpl.
    rewrite filter_app, (filter_none is_send) by apply fetch_trace_no_send.
    apply deliver_sends_once.
  - rewrite run_closed by done. simpl. do 2 eexists. split; [done|].
    split; [apply fetch_trace_no_send | apply deliver_sends_once].
Qed.

Lemma one_request_per_pair_then_one_email_witness :
  key_missing cfg_two = false ∧
  length (filter (fun e => is_request e = true)
            (run no_repr cfg_two world_timeout).1) = 2 * 1.
Proof.
  split; [reflexivity|].
  apply (one_request_per_pair_then_one_email no_repr cfg_two world_timeout).
  reflexivity.
Defined.

(** When the relay refuses the message, the run ends with the relay's
    exception right after the attempt: the closing line is not printed. *)
Theorem relay_failure_ends_run (rc : value → string) (cfg : config)
    (env : world) (html_body : string) (e : exn) :
  key_missing cfg = false →
  build_email_html rc (collected cfg env) = Ok html_body →
  smtp_deliver env (digest_email cfg env (collected cfg env) html_body)
  = Some e →
  run rc cfg env
  = ((fetch_trace cfg env
      ++ [EvSendEmail (digest_email cfg env (collected cfg env) html_body)])%list,
     Raise e).
Proof.
  intros Hk Hb Hs. rewrite run_closed by done. unfold deliver.
  by rewrite Hb, Hs.
Qed.

Lemma relay_failure_ends_run_witness :
  key_missing cfg_one = false ∧
  (run no_repr cfg_one world_relay_down).2
  = Raise (SMTPException "connection refused").
Proof.
  split; [reflexivity|].
  by rewrite (relay_failure_ends_run no_repr cfg_one world_relay_down _
                (SMTPException "connection refused") eq_refl eq_refl eq_refl).
Defined.

Lemma fetch_trace_no_closing (cfg : config) (env : world) :
  Forall (fun e => ∀ n, e ≠ EvPrintSent n) (fetch_trace cfg env).
Proof.
  apply Forall_concat_imap. intros i p. unfold pair_events.
  destruct (pair_outcome _).2; by repeat constructor.
Qed.

(** The closing line is printed only by a run that ended normally after the
    relay accepted the message, and it reports the count of the subject: the
    number of collected records. *)
Theorem closing_line_reports_subject_count (rc : value → string)
    (cfg : config) (env : world) (n : nat) :
  EvPrintSent n ∈ (run rc cfg env).1 →
  (run rc cfg env).2 = Ok tt ∧
  n = length (jobs_collected (main rc cfg env initial).1) ∧
  ∃ m, EvSendEmail m ∈ (run rc cfg env).1 ∧
       subject_line m = subject_of n (utc_today env) ∧
       smtp_deliver env m = None.
Proof.
  destruct (key_missing cfg) eqn:Hk.
  - unfold run. rewrite main_no_key by done. by intros H%elem_of_nil.
  - rewrite main_closed, run_closed by done. simpl. intros H.
    apply elem_of_app in H as [H|H].
    { exfalso. pose proof (fetch_trace_no_closing cfg env) as Hn.
      rewrite Forall_forall in Hn. by apply (Hn _ H n). }
    unfold deliver in *.
    destruct (build_email_html rc (collected cfg env)) as [html|e]; simpl in *;
      [|by apply elem_of_nil in H].
    destruct (smtp_deliver env _) as [e|] eqn:Hs; simpl in *.
    + by apply list_elem_of_singleton in H.
    + apply elem_of_cons in H as [H|H]; [done|].
      apply list_elem_of_singleton in H. injection H as ->.
      repeat split; try done. eexists. split.
      * apply elem_of_app. right. apply elem_of_cons. by left.
      * by split.
Qed.

Lemma closing_line_reports_subject_count_witness :
  EvPrintSent 1 ∈ (run no_repr cfg_one world_no_link).1 ∧
  (run no_repr cfg_one world_no_link).2 = Ok tt.
Proof.
  assert (H : EvPrintSent 1 ∈ (run no_repr cfg_one world_no_link).1).
  { apply list_elem_of_In. right. right. left. reflexivity. }
  split; [exact H|].
  apply (closing_line_reports_subject_count no_repr cfg_one world_no_link 1 H).
Defined.

(** When a collected record makes the renderer raise, the run ends with that
    exception after the fetching loop and hands nothing to the relay, however
    many other records were collected. *)
Theorem render_failure_sends_nothing (rc : value → string) (cfg : config)
    (env : world) (e : exn) :
  key_missing cfg = false →
  build_email_html rc (collected cfg env) = Raise e →
  run rc cfg env = (fetch_trace cfg env, Raise e) ∧
  Forall (fun ev => is_send ev = false) (run rc cfg env).1.
Proof.
  intros Hk Hb. rewrite run_closed by done. unfold deliver. rewrite Hb. simpl.
  rewrite app_nil_r. split; [done | apply fetch_trace_no_send].
Qed.

Lemma render_failure_sends_nothing_witness :
  key_missing cfg_one = false ∧
  matches_interest job_null_location = Ok true ∧
  run no_repr cfg_one world_null_location
  = (fetch_trace cfg_one world_null_location, Raise WrongType).
Proof.
  split; [reflexivity|]. split; [reflexivity|].
  apply (render_failure_sends_nothing no_repr cfg_one world_null_location
           WrongType); reflexivity.
Defined.

Lemma concat_imap_const {A B} (f : nat → A → list B) (l : list A)
    (x : list B) :
  (∀ i a, f i a = x) → concat (imap f l) = concat (replicate (length l) x).
Proof.
  intros Hf. revert f Hf. induction l as [|a l IH]; intros f Hf; [done|].
  rewrite imap_cons, concat_cons, Hf. simpl. f_equal. apply IH.
  intros i b. apply Hf.
Qed.

(** Nothing is merged across pairs: when the service gives the same answer to
    every request, what that answer contributes is collected once per pair. *)
Theorem same_answer_is_collected_once_per_pair (rc : value → string)
    (cfg : config) (env : world) (o : http_outcome) :
  key_missing cfg = false →
  (∀ n url q key, http_get env n url q key = o) →
  jobs_collected (main rc cfg env initial).1
  = concat (replicate (length (JOB_QUERY_TERMS cfg) * length (LOCATIONS cfg))
              (pair_outcome o).1).
Proof.
  intros Hk Ho. rewrite main_closed by done. simpl. unfold collected.
  rewrite <- length_pairs. apply concat_imap_const.
  intros i p. unfold nth_outcome. by rewrite Ho.
Qed.

Lemma same_answer_is_collected_once_per_pair_witness :
  jobs_collected (main no_repr cfg_two world_same_answer initial).1
  = [job_ok; job_no_link; job_ok; job_no_link].
Proof.
  by rewrite (same_answer_is_collected_once_per_pair no_repr cfg_two
                world_same_answer (found [job_ok; job_no_link]) eq_refl
                (fun _ _ _ _ => eq_refl)).
Defined.

Lemma key_missing_iff (cfg : config) :
  key_missing cfg = true ↔
  SERPAPI_KEY cfg = None ∨ SERPAPI_KEY cfg = Some EmptyString.
Proof.
  unfold key_missing. destruct (SERPAPI_KEY cfg) as [k|].
  - rewrite String.eqb_eq. split; [intros ->; by right|].
    by intros [?|[= ->]].
  - split; [by left | done].
Qed.

(** A run leaves no trace at all exactly when the API key is unset or set to
    the empty text; with any other key it makes a request or, when there is no
    pair to visit, still sends the "no jobs" digest. *)
Theorem run_silent_iff_key_missing (rc : value → string) (cfg : config)
    (env : world) :
  (run rc cfg env).1 = [] ↔
  SERPAPI_KEY cfg = None ∨ SERPAPI_KEY cfg = Some EmptyString.
Proof.
  rewrite <- key_missing_iff. destruct (key_missing cfg) eqn:Hk.
  - unfold run. by rewrite main_no_key.
  - split; [|done]. rewrite run_closed by done. simpl.
    unfold fetch_trace, collected.
    destruct (pairs cfg) as [|p ps]; simpl.
    + unfold deliver. simpl. by destruct (smtp_deliver env _).
    + unfold pair_events at 1. simpl. done.
Qed.

(** A response that is no error and whose body is an object without
    [jobs_results], or with an empty list there, leaves nothing behind but the
    request: no record and no log line. *)
Theorem empty_results_are_silent (cfg : config) (env : world)
    (p : string * string) (s : state) (status : Z) (d : gmap string value) :
  nth_outcome cfg env (requests s) p = Response status (Some (VDict d)) →
  (status < 400 ∨ 600 ≤ status)%Z →
  d !! "jobs_results" = None ∨ d !! "jobs_results" = Some (VList []) →
  visit cfg env p s
  = ({| trace := (trace s ++ [request_of cfg p])%list;
        requests := S (requests s);
        jobs_collected := jobs_collected s |}, Ok tt).
Proof.
  intros Ho Hs Hd. destruct p as [query loc]. unfold visit. simpl.
  rewrite try_pair. unfold after_pair, pair_events, pair_outcome, search_result.
  rewrite Ho. simpl.
  assert (Hst : ((400 <=? status) && (status <? 600))%Z = false).
  { apply andb_false_iff. destruct Hs; [left|right]; lia. }
  rewrite Hst. destruct Hd as [-> | ->]; simpl; by rewrite app_nil_r.
Qed.

Lemma empty_results_are_silent_witness :
  visit cfg_one (sample_world [Response 200 (Some (VDict ∅))])
    ("Django developer", "Remote") initial
  = ({| trace := [request_of cfg_one ("Django developer", "Remote")];
        requests := 1;
        jobs_collected := [] |}, Ok tt).
Proof.
  apply (empty_results_are_silent cfg_one
           (sample_world [Response 200 (Some (VDict ∅))])
           ("Django developer", "Remote") initial 200 ∅);
    [reflexivity | left; lia | left; reflexivity].
Defined.

Lemma accepted_upto_non_records (items : list value) :
  Forall (fun j => is_dict j = false) items → (accepted_upto items).1 = [].
Proof.
  destruct 1 as [|j items Hj _]; [done|]. simpl.
  by destruct j.
Qed.

Lemma chars_not_dicts (s : string) :
  Forall (fun j => is_dict j = false) (chars s).
Proof. induction s; by constructor. Qed.

(** When [jobs_results] is not a list (a text, an object, a number, [null]),
    the pair adds no record, whatever the value holds. *)
Theorem non_list_results_add_nothing (cfg : config) (env : world)
    (p : string * string) (s : state) (v : value) :
  response_jobs (nth_outcome cfg env (requests s) p) = Ok v →
  is_list v = false →
  jobs_collected (visit cfg env p s).1 = jobs_collected s ∧
  (visit cfg env p s).2 = Ok tt.
Proof.
  intros Hv Hl. destruct p as [query loc]. unfold visit. simpl.
  rewrite try_pair. split; [|done].
  unfold after_pair, pair_outcome, search_result. simpl. rewrite Hv. simpl.
  destruct v as [| | |x| |d]; try done; simpl; try (by rewrite app_nil_r).
  - by rewrite accepted_upto_non_records, app_nil_r by apply chars_not_dicts.
  - rewrite accepted_upto_non_records, app_nil_r; [done|].
    apply Forall_fmap, Forall_true. done.
Qed.

Lemma non_list_results_add_nothing_witness :
  jobs_collected
    (visit cfg_one
       (sample_world [Response 200 (Some (VDict (list_to_map
          [("jobs_results", VStr "junior python")])))])
       ("Django developer", "Remote") initial).1 = [].
Proof.
  apply (non_list_results_add_nothing cfg_one _ ("Django developer", "Remote")
           initial (VStr "junior python")); reflexivity.
Defined.

(** ** The script as a whole *)

Lemma split_length (sep : ascii) (s : string) :
  length (split sep s) = S (count_char sep s).
Proof.
  induction s as [|c s IH]; simpl; [done|].
  destruct (Ascii.eqb c sep); simpl; [by rewrite IH|].
  pose proof (split_not_nil sep s).
  destruct (split sep s) as [|piece rest]; [done|]. simpl in *. by rewrite <- IH.
Qed.

Lemma load_config_some (py_int : string → option Z)
    (environ : gmap string string) (cfg : config) :
  load_config py_int environ = Some cfg →
  SERPAPI_KEY cfg = environ !! "SERPAPI_API_KEY" ∧
  EMAIL_HOST cfg = default "smtp.gmail.com" (environ !! "EMAIL_SMTP_HOST") ∧
  EMAIL_USER cfg = environ !! "EMAIL_USERNAME" ∧
  EMAIL_TO cfg = match environ !! "EMAIL_TO" with
                 | Some t => Some t
                 | None => environ !! "EMAIL_USERNAME"
                 end ∧
  JOB_QUERY_TERMS cfg
  = split semicolon (default DEFAULT_QUERY_TERMS (environ !! "JOB_QUERY_TERMS")) ∧
  LOCATIONS cfg
  = split semicolon (default DEFAULT_LOCATIONS (environ !! "LOCATIONS")).
Proof.
  unfold load_config.
  destruct (getenv_int py_int environ "EMAIL_SMTP_PORT" 587); [|done].
  destruct (getenv_int py_int environ "MAX_RESULTS" 25); [|done].
  destruct (getenv_int py_int environ "MIN_DAYS_OLD" 4); [|done].
  simpl. by intros [= <-].
Qed.

(** With a non-empty key in the environment, the number of requests of a run
    is fixed by the two list variables alone: one more than the semicolons of
    the terms, times one more than the semicolons of the locations (the
    defaults when a variable is unset); it is never zero, an empty variable
    giving one empty term. *)
Theorem requests_counted_by_semicolons (py_int : string → option Z)
    (rc : value → string) (environ : gmap string string) (env : world)
    (out : list event * result unit) (key : string) :
  script py_int rc environ env = Some out →
  environ !! "SERPAPI_API_KEY" = Some key →
  key ≠ EmptyString →
  length (filter (fun e => is_request e = true) out.1)
  = S (count_char semicolon
         (default DEFAULT_QUERY_TERMS (environ !! "JOB_QUERY_TERMS")))
    * S (count_char semicolon
           (default DEFAULT_LOCATIONS (environ !! "LOCATIONS"))).
Proof.
  unfold script. intros H Hkey Hne.
  destruct (load_config py_int environ) as [cfg|] eqn:Hcfg; [|done].
  injection H as <-.
  apply load_config_some in Hcfg as (Hk & _ & _ & _ & Ht & Hl).
  assert (Hm : key_missing cfg = false).
  { unfold key_missing. rewrite Hk, Hkey. by apply String.eqb_neq. }
  by rewrite run_requests_closed, length_map, length_pairs, Ht, Hl,
    !split_length.
Qed.

Lemma requests_counted_by_semicolons_witness :
  ∃ out, script sample_int no_repr sample_environ world_same_answer = Some out ∧
         length (filter (fun e => is_request e = true) out.1) = 3 * 1.
Proof.
  eexists. split; [reflexivity|].
  by rewrite (requests_counted_by_semicolons sample_int no_repr sample_environ
                world_same_answer _ "key" eq_refl eq_refl).
Defined.

(** When [EMAIL_TO] is unset, every message of a run goes from and to
    [EMAIL_USERNAME], through the configured host or [smtp.gmail.com]. *)
Theorem recipient_defaults_to_sender (py_int : string → option Z)
    (rc : value → string) (environ : gmap string string) (env : world)
    (out : list event * result unit) (m : email) :
  script py_int rc environ env = Some out →
  environ !! "EMAIL_TO" = None →
  EvSendEmail m ∈ out.1 →
  mail_from m = environ !! "EMAIL_USERNAME" ∧
  rcpt_to m = environ !! "EMAIL_USERNAME" ∧
  login_user m = environ !! "EMAIL_USERNAME" ∧
  smtp_host m = default "smtp.gmail.com" (environ !! "EMAIL_SMTP_HOST").
Proof.
  unfold script. intros H Hto Hin.
  destruct (load_config py_int environ) as [cfg|] eqn:Hcfg; [|done].
  injection H as <-.
  apply load_config_some in Hcfg as (_ & Hh & Hu & Ht & _ & _).
  rewrite Hto in Ht.
  apply run_send in Hin as (_ & html & _ & ->). simpl.
  by rewrite Hh, Hu, Ht.
Qed.

Lemma recipient_defaults_to_sender_witness :
  ∃ out m,
    script sample_int no_repr sample_environ world_same_answer = Some out ∧
    EvSendEmail m ∈ out.1 ∧ rcpt_to m = Some "me@example.com".
Proof.
  set (out := default ([], Ok tt)
                (script sample_int no_repr sample_environ world_same_answer)).
  assert (Hs : script sample_int no_repr sample_environ world_same_answer
               = Some out) by reflexivity.
  assert (Hto : sample_environ !! "EMAIL_TO" = None) by reflexivity.
  assert (Hex : ∃ m, EvSendEmail m ∈ out.1).
  { eexists. apply list_elem_of_In. vm_compute. do 3 right. left. reflexivity. }
  destruct Hex as [m Hin]. exists out, m.
  split; [exact Hs|]. split; [exact Hin|].
  by destruct (recipient_defaults_to_sender sample_int no_repr sample_environ
                 world_same_answer out m Hs Hto Hin) as (_ & -> & _).
Defined.

(** ** The size of a snippet *)

Lemma string_length_app (a b : string) :
  String.length (a ++ b) = String.length a + String.length b.
Proof. induction a as [|x a IH]; simpl; [done | by rewrite IH]. Qed.

Lemma replace_char_app (c : ascii) (r a b : string) :
  replace_char c r (a ++ b) = replace_char c r a ++ replace_char c r b.
Proof.
  induction a as [|x a IH]; simpl; [done|].
  destruct (Ascii.eqb x c); rewrite IH; [by rewrite string_app_assoc | done].
Qed.

Lemma html_escape_app (a b : string) (quote : bool) :
  html_escape (a ++ b) quote = html_escape a quote ++ html_escape b quote.
Proof. unfold html_escape. rewrite !replace_char_app. by destruct quote. Qed.

Lemma html_escape_char_length (c : ascii) :
  (1 ≤ String.length (html_escape (String c EmptyString) true) ≤ 6)%nat.
Proof.
  destruct c as [[] [] [] [] [] [] [] []];
    split; apply Nat.leb_le; by vm_compute.
Qed.

Lemma html_escape_length (s : string) :
  (String.length s ≤ String.length (html_escape s true)
   ≤ 6 * String.length s)%nat.
Proof.
  induction s as [|c s IH]; [split; apply Nat.leb_le; by vm_compute|].
  rewrite (html_escape_app (String c EmptyString) s true : 
             html_escape (String c s) true = _), string_length_app.
  pose proof (html_escape_char_length c).
  change (String.length (String c s)) with (S (String.length s)). lia.
Qed.

Lemma str_take_all (n : nat) (s : string) :
  (String.length s ≤ n)%nat → str_take n s = s.
Proof.
  revert s. induction n as [|n IH]; intros [|c s]; simpl; try done; [lia|].
  intros H. rewrite IH; [done | lia].
Qed.

(** A snippet is never longer than 1500 characters (250 characters, each
    escaped to at most six); a description of at most 250 characters is shown
    whole, escaped. *)
Theorem snippet_length_bounds (j : value) (snippet : string) :
  snippet_of j = Ok snippet →
  (String.length snippet ≤ 1500)%nat ∧
  ∀ desc, py_get j "description" (VStr EmptyString) = Ok (VStr desc) →
          (String.length desc ≤ 250)%nat →
          snippet = html_escape desc true.
Proof.
  intros (desc & Hd & ->)%snippet_of_ok. split.
  - pose proof (html_escape_length (str_take 250 desc)).
    pose proof (str_take_length 250 desc). lia.
  - intros desc' Hd' Hlen. rewrite Hd in Hd'. injection Hd' as <-.
    by rewrite str_take_all.
Qed.

Lemma snippet_length_bounds_witness :
  ∃ snippet, snippet_of job_ampersands = Ok snippet ∧
             (String.length snippet ≤ 1500)%nat.
Proof.
  eexists. split; [reflexivity|].
  apply (snippet_length_bounds job_ampersands). reflexivity.
Defined.
